(** * sistema-login: the credential store and the lockout state machine

    A shallow embedding of [src/auth_system.py] (class [AuthSystem]) and the
    properties of its registration, login and lockout logic.

    Layout:
    - [Text]: Python [str] values as lists of code points, [str.encode()].
    - [SHA256]: [hashlib.sha256(...).hexdigest()] after FIPS 180-4.
    - [User], [Auth]: the [AuthSystem] object, the backing file and every
      method, in a state-and-exception monad.
    - [Demo]: concrete users and systems.
    - test vectors, the equations of each path through [login] and
      [register_user], then the properties. *)

From Stdlib Require Import ZArith NArith List Lia Bool Ascii String.
From stdpp Require Import gmap list option.

Local Open Scope Z_scope.
Local Open Scope list_scope.

(* ===================================================================== *)
(** ** Python text *)
(* ===================================================================== *)

(** A Python [str] is a sequence of Unicode code points; [len] counts code
    points, not bytes.  Bytes are integers in [0, 256). *)
Abbreviation str := (list N).
Abbreviation bytes := (list Z).

Module Text.

(** The code points of an ASCII literal; used to write concrete user names
    and passwords. *)
Definition lit (s : String.string) : str :=
  map (fun c => N.of_nat (Ascii.nat_of_ascii c)) (String.list_ascii_of_string s).

(** UTF-8 of one code point.  The surrogates U+D800..U+DFFF have no UTF-8
    form: [str.encode()] raises [UnicodeEncodeError] on them; values above
    U+10FFFF are not code points at all. *)
Definition encode_char (c : N) : option bytes :=
  let z := Z.of_N c in
  if z <? 0x80 then Some [z]
  else if z <? 0x800 then
    Some [Z.lor 0xC0 (Z.shiftr z 6); Z.lor 0x80 (Z.land z 0x3F)]
  else if (0xD800 <=? z) && (z <=? 0xDFFF) then None
  else if z <? 0x10000 then
    Some [Z.lor 0xE0 (Z.shiftr z 12);
          Z.lor 0x80 (Z.land (Z.shiftr z 6) 0x3F);
          Z.lor 0x80 (Z.land z 0x3F)]
  else if z <? 0x110000 then
    Some [Z.lor 0xF0 (Z.shiftr z 18);
          Z.lor 0x80 (Z.land (Z.shiftr z 12) 0x3F);
          Z.lor 0x80 (Z.land (Z.shiftr z 6) 0x3F);
          Z.lor 0x80 (Z.land z 0x3F)]
  else None.

(** [s.encode()]: the default codec is UTF-8 with strict error handling. *)
Fixpoint encode (s : str) : option bytes :=
  match s with
  | [] => Some []
  | c :: rest =>
      match encode_char c, encode rest with
      | Some b, Some bs => Some (b ++ bs)
      | _, _ => None
      end
  end.

(** The sixteen characters [hexdigest] draws from. *)
Definition is_lower_hex (c : N) : bool :=
  ((48 <=? c) && (c <=? 57) || (97 <=? c) && (c <=? 102))%N.

End Text.

(* ===================================================================== *)
(** ** SHA-256 *)
(* ===================================================================== *)

Module SHA256.

Definition mask32 : Z := 0xFFFFFFFF.
Definition add32 (x y : Z) : Z := Z.land (x + y) mask32.
Definition rotr (n x : Z) : Z :=
  Z.lor (Z.shiftr x n) (Z.land (Z.shiftl x (32 - n)) mask32).
Definition not32 (x : Z) : Z := Z.lxor x mask32.

Definition Ch (x y z : Z) : Z := Z.lxor (Z.land x y) (Z.land (not32 x) z).
Definition Maj (x y z : Z) : Z :=
  Z.lxor (Z.lxor (Z.land x y) (Z.land x z)) (Z.land y z).
Definition bsig0 (x : Z) : Z := Z.lxor (Z.lxor (rotr 2 x) (rotr 13 x)) (rotr 22 x).
Definition bsig1 (x : Z) : Z := Z.lxor (Z.lxor (rotr 6 x) (rotr 11 x)) (rotr 25 x).
Definition ssig0 (x : Z) : Z := Z.lxor (Z.lxor (rotr 7 x) (rotr 18 x)) (Z.shiftr x 3).
Definition ssig1 (x : Z) : Z := Z.lxor (Z.lxor (rotr 17 x) (rotr 19 x)) (Z.shiftr x 10).

(** Round constants, four to a row. *)
Definition K : list Z :=
  [ 0x428A2F98; 0x71374491; 0xB5C0FBCF; 0xE9B5DBA5 ] ++
  [ 0x3956C25B; 0x59F111F1; 0x923F82A4; 0xAB1C5ED5 ] ++
  [ 0xD807AA98; 0x12835B01; 0x243185BE; 0x550C7DC3 ] ++
  [ 0x72BE5D74; 0x80DEB1FE; 0x9BDC06A7; 0xC19BF174 ] ++
  [ 0xE49B69C1; 0xEFBE4786; 0x0FC19DC6; 0x240CA1CC ] ++
  [ 0x2DE92C6F; 0x4A7484AA; 0x5CB0A9DC; 0x76F988DA ] ++
  [ 0x983E5152; 0xA831C66D; 0xB00327C8; 0xBF597FC7 ] ++
  [ 0xC6E00BF3; 0xD5A79147; 0x06CA6351; 0x14292967 ] ++
  [ 0x27B70A85; 0x2E1B2138; 0x4D2C6DFC; 0x53380D13 ] ++
  [ 0x650A7354; 0x766A0ABB; 0x81C2C92E; 0x92722C85 ] ++
  [ 0xA2BFE8A1; 0xA81A664B; 0xC24B8B70; 0xC76C51A3 ] ++
  [ 0xD192E819; 0xD6990624; 0xF40E3585; 0x106AA070 ] ++
  [ 0x19A4C116; 0x1E376C08; 0x2748774C; 0x34B0BCB5 ] ++
  [ 0x391C0CB3; 0x4ED8AA4A; 0x5B9CCA4F; 0x682E6FF3 ] ++
  [ 0x748F82EE; 0x78A5636F; 0x84C87814; 0x8CC70208 ] ++
  [ 0x90BEFFFA; 0xA4506CEB; 0xBEF9A3F7; 0xC67178F2 ].

(** The eight working words. *)
Record regs := Regs { ra : Z; rb : Z; rc : Z; rd : Z; re : Z; rf : Z; rg : Z; rh : Z }.

Definition H0 : regs :=
  Regs 0x6A09E667 0xBB67AE85 0x3C6EF372 0xA54FF53A
       0x510E527F 0x9B05688C 0x1F83D9AB 0x5BE0CD19.

(** Padding: a 1 bit, zeros up to 56 mod 64 bytes, the bit length on 64 bits. *)
Definition be_bytes (n : nat) (x : Z) : bytes :=
  map (fun i => Z.land (Z.shiftr x (8 * Z.of_nat i)) 0xFF) (rev (seq 0 n)).

Definition pad (msg : bytes) : bytes :=
  let len := Z.of_nat (length msg) in
  msg ++ [0x80] ++ repeat 0 (Z.to_nat ((55 - len) mod 64)) ++ be_bytes 8 (8 * len).

(** Big-endian 32-bit words of a byte string. *)
Fixpoint words (bs : bytes) : list Z :=
  match bs with
  | b3 :: b2 :: b1 :: b0 :: rest =>
      Z.lor (Z.shiftl b3 24) (Z.lor (Z.shiftl b2 16) (Z.lor (Z.shiftl b1 8) b0))
      :: words rest
  | _ => []
  end.

(** Blocks of sixteen words; [fuel] bounds the number of blocks. *)
Fixpoint blocks (fuel : nat) (ws : list Z) : list (list Z) :=
  match fuel, ws with
  | S fuel', _ :: _ => firstn 16 ws :: blocks fuel' (skipn 16 ws)
  | _, _ => []
  end.

(** Message schedule.  [recent] holds the words computed so far, newest
    first, so W(t-2), W(t-7), W(t-15), W(t-16) sit at 1, 6, 14, 15. *)
Fixpoint extend (n : nat) (recent : list Z) : list Z :=
  match n with
  | O => recent
  | S n' =>
      let w := add32 (add32 (ssig1 (nth 1 recent 0)) (nth 6 recent 0))
                     (add32 (ssig0 (nth 14 recent 0)) (nth 15 recent 0)) in
      extend n' (w :: recent)
  end.

Definition schedule (block : list Z) : list Z := rev (extend 48 (rev block)).

Definition round (r : regs) (kw : Z * Z) : regs :=
  let t1 := add32 (add32 (add32 (rh r) (bsig1 (re r)))
                         (add32 (Ch (re r) (rf r) (rg r)) (fst kw))) (snd kw) in
  let t2 := add32 (bsig0 (ra r)) (Maj (ra r) (rb r) (rc r)) in
  Regs (add32 t1 t2) (ra r) (rb r) (rc r) (add32 (rd r) t1) (re r) (rf r) (rg r).

Definition compress (h : regs) (block : list Z) : regs :=
  let r := fold_left round (combine K (schedule block)) h in
  Regs (add32 (ra h) (ra r)) (add32 (rb h) (rb r)) (add32 (rc h) (rc r))
       (add32 (rd h) (rd r)) (add32 (re h) (re r)) (add32 (rf h) (rf r))
       (add32 (rg h) (rg r)) (add32 (rh h) (rh r)).

Definition digest (msg : bytes) : regs :=
  let ws := words (pad msg) in
  fold_left compress (blocks (length ws) ws) H0.

(** Lowercase hexadecimal rendering. *)
Definition hex_digit (d : Z) : N :=
  if d <? 10 then Z.to_N (48 + d) else Z.to_N (87 + d).

Definition hex_word (w : Z) : str :=
  map (fun i => hex_digit (Z.land (Z.shiftr w (4 * Z.of_nat i)) 0xF)) (rev (seq 0 8)).

Definition hex_regs (r : regs) : str :=
  hex_word (ra r) ++ hex_word (rb r) ++ hex_word (rc r) ++ hex_word (rd r) ++
  hex_word (re r) ++ hex_word (rf r) ++ hex_word (rg r) ++ hex_word (rh r).

(** [hashlib.sha256(msg).hexdigest()] *)
Definition hexdigest (msg : bytes) : str := hex_regs (digest msg).

End SHA256.

(* ===================================================================== *)
(** ** The authentication system *)
(* ===================================================================== *)

(** One entry of the JSON document: [{"password": ..., "created_at": ...}]. *)
Module User.
Record record := Record { password : str; created_at : str }.
End User.

Module Auth.

(** What [open] and [json.load] find at [self.users_file]:
    - [Absent]: [os.path.exists] is false;
    - [Malformed]: the file holds text that the parser rejects with
      [JSONDecodeError] (an empty file, a truncated document);
    - [Stored users]: a JSON object in the format [_save_users] writes,
      which the parser turns back into the dictionary [users];
    - [Undecodable]: the file holds bytes that are not UTF-8, so they are
      no JSON text either; reading them raises [UnicodeDecodeError];
    - [Unopenable]: the path exists and [open] raises an [OSError] other
      than [FileNotFoundError] (no permission, a directory).
    A JSON document of another shape (not an object of such records) is
    outside this model. *)
Inductive file_state :=
| Absent
| Malformed
| Stored (users : gmap str User.record)
| Undecodable
| Unopenable.

(** The object and its surroundings.  [failed_attempts] and [max_attempts]
    are the attributes set by [__init__]; [users_file] is the content of the
    file the attribute of that name points to.  Two fields stand for the
    environment: [write_fault users = Some f] when writing the mapping
    [users] raises ([open] refused, the disk full, a key the UTF-8 file
    cannot hold), [f] being what the failed write leaves on disk, and
    [clock], the text [datetime.now().isoformat()] returns. *)
Record state := State {
  users_file : file_state;
  failed_attempts : gmap str Z;
  max_attempts : Z;
  write_fault : gmap str User.record -> option file_state;
  clock : str
}.

Definition set_users_file (f : file_state) (s : state) : state :=
  State f (failed_attempts s) (max_attempts s) (write_fault s) (clock s).

Definition set_failed_attempts (fa : gmap str Z) (s : state) : state :=
  State (users_file s) fa (max_attempts s) (write_fault s) (clock s).

(** The exceptions the modelled methods let escape: [UnicodeEncodeError]
    from [password.encode()], and from reading the file the two that the
    [except] clause of [_load_users] does not name. *)
Inductive exn :=
| UnicodeEncodeError
| UnicodeDecodeError
| OSError.

Inductive result (A : Type) :=
| Return (a : A)
| Raise (e : exn).
Arguments Return {A} a.
Arguments Raise {A} e.

(** Methods run in a state and either return or raise. *)
Definition M (A : Type) : Type := state -> result A * state.

Definition ret {A} (a : A) : M A := fun s => (Return a, s).

Definition lift {A} (r : result A) : M A := fun s => (r, s).

Definition bind {A B} (m : M A) (k : A -> M B) : M B :=
  fun s =>
    match m s with
    | (Return a, s') => k a s'
    | (Raise e, s') => (Raise e, s')
    end.

Definition get {A} (f : state -> A) : M A := fun s => (Return (f s), s).

Definition modify (f : state -> state) : M unit := fun s => (Return tt, f s).

Notation "'let*' x ':=' m 'in' k" := (bind m (fun x => k))
  (at level 10, x name, m at level 100, k at level 200).

(** The second component of every [(éxito, mensaje)] pair:
    - [EmptyCredentials]: "El nombre de usuario y la contraseña no pueden estar vacíos"
    - [UsernameTooShort]: "El nombre de usuario debe tener al menos 3 caracteres"
    - [PasswordTooShort]: "La contraseña debe tener al menos 6 caracteres"
    - [UserAlreadyExists]: "El usuario ya existe"
    - [Registered]: "Usuario registrado exitosamente"
    - [SaveError]: "Error al guardar el usuario"
    - [UserBlocked n]: "Usuario bloqueado. Has superado el máximo de n intentos"
    - [UserNotFound]: "Usuario no encontrado"
    - [LoginOk]: "Login exitoso"
    - [WrongPassword n]: "Contraseña incorrecta. Te quedan n intentos" *)
Inductive message :=
| EmptyCredentials
| UsernameTooShort
| PasswordTooShort
| UserAlreadyExists
| Registered
| SaveError
| UserBlocked (max : Z)
| UserNotFound
| LoginOk
| WrongPassword (remaining : Z).

(** The outcomes of the "Validaciones básicas" of [register_user]. *)
Definition is_validation_error (m : message) : bool :=
  match m with
  | EmptyCredentials | UsernameTooShort | PasswordTooShort => true
  | _ => false
  end.

(** [AuthSystem(users_file)]: no failure recorded, threshold 3. *)
Definition __init__ (file : file_state)
    (fault : gmap str User.record -> option file_state) (now : str) : state :=
  State file ∅ 3 fault now.

(** [not s] on a string. *)
Definition falsy (s : str) : bool :=
  match s with
  | [] => true
  | _ :: _ => false
  end.

Definition _hash_password (password : str) : result str :=
  match Text.encode password with
  | Some b => Return (SHA256.hexdigest b)
  | None => Raise UnicodeEncodeError
  end.

(** The users a file holds for the program: the parsed object, and nobody
    when there is no object to parse. *)
Definition read_file (file : file_state) : gmap str User.record :=
  match file with
  | Stored users => users
  | Absent => ∅
  | Malformed => ∅
  | Undecodable => ∅
  | Unopenable => ∅
  end.

(** The exception reading the file raises, if it raises one that
    [except (FileNotFoundError, json.JSONDecodeError)] lets through. *)
Definition load_error (file : file_state) : option exn :=
  match file with
  | Undecodable => Some UnicodeDecodeError
  | Unopenable => Some OSError
  | Absent | Malformed | Stored _ => None
  end.

(** The [try] body returns the parsed object, or [{}] when the file does not
    exist; the [except] clause turns [JSONDecodeError] into [{}]; any other
    exception escapes. *)
Definition _load_users : M (gmap str User.record) :=
  let* file := get users_file in
  match file with
  | Absent => ret ∅
  | Stored users => ret users
  | Malformed => ret ∅
  | Undecodable => lift (Raise UnicodeDecodeError)
  | Unopenable => lift (Raise OSError)
  end.

(** The [try] body either completes, and the file holds [users], or raises,
    and the [except] clause answers [False] (the message it prints is not
    modelled). *)
Definition _save_users (users : gmap str User.record) : M bool :=
  let* fault := get write_fault in
  match fault users with
  | None => let* _ := modify (set_users_file (Stored users)) in ret true
  | Some remains => let* _ := modify (set_users_file remains) in ret false
  end.

Definition _get_current_timestamp : M str := get clock.

(** [self.failed_attempts.get(username, 0)] *)
Definition attempts (username : str) (s : state) : Z :=
  default 0 (failed_attempts s !! username).

Definition _is_user_blocked (username : str) : M bool :=
  let* n := get (attempts username) in
  let* max := get max_attempts in
  ret (max <=? n).

Definition _increment_failed_attempts (username : str) : M unit :=
  let* n := get (attempts username) in
  modify (fun s => set_failed_attempts (<[username := n + 1]> (failed_attempts s)) s).

Definition _reset_failed_attempts (username : str) : M unit :=
  let* fa := get failed_attempts in
  match fa !! username with
  | Some _ => modify (set_failed_attempts (delete username fa))
  | None => ret tt
  end.

Definition register_user (username password : str) : M (bool * message) :=
  if falsy username || falsy password then ret (false, EmptyCredentials)
  else if (length username <? 3)%nat then ret (false, UsernameTooShort)
  else if (length password <? 6)%nat then ret (false, PasswordTooShort)
  else
    let* users := _load_users in
    match users !! username with
    | Some _ => ret (false, UserAlreadyExists)
    | None =>
        let* hashed_password := lift (_hash_password password) in
        let* now := _get_current_timestamp in
        let users := <[username := User.Record hashed_password now]> users in
        let* saved := _save_users users in
        if saved then ret (true, Registered) else ret (false, SaveError)
    end.

Definition login (username password : str) : M (bool * message) :=
  let* blocked := _is_user_blocked username in
  if blocked then
    let* max := get max_attempts in ret (false, UserBlocked max)
  else
    let* users := _load_users in
    match users !! username with
    | None =>
        let* _ := _increment_failed_attempts username in
        ret (false, UserNotFound)
    | Some entry =>
        let* hashed_password := lift (_hash_password password) in
        if bool_decide (User.password entry = hashed_password) then
          let* _ := _reset_failed_attempts username in
          ret (true, LoginOk)
        else
          let* _ := _increment_failed_attempts username in
          let* max := get max_attempts in
          let* n := get (attempts username) in
          let remaining := max - n in
          if remaining <=? 0 then ret (false, UserBlocked max)
          else ret (false, WrongPassword remaining)
    end.

Definition get_user_count : M nat :=
  let* users := _load_users in ret (size users).

Definition user_exists (username : str) : M bool :=
  let* users := _load_users in ret (bool_decide (is_Some (users !! username))).

Definition unblock_user (username : str) : M bool :=
  let* fa := get failed_attempts in
  match fa !! username with
  | Some _ =>
      let* _ := modify (set_failed_attempts (delete username fa)) in ret true
  | None => ret false
  end.

(** The state a call leaves and the value it returns. *)
Definition after {A} (m : M A) (s : state) : state := snd (m s).
Definition value {A} (m : M A) (s : state) : result A := fst (m s).

(** Successive [login] calls for one user name, one per password of the
    list: the outcomes in order and the final state. *)
Fixpoint logins (username : str) (passwords : list str) (s : state)
  : list (result (bool * message)) * state :=
  match passwords with
  | [] => ([], s)
  | password :: rest =>
      let (outcomes, s') := logins username rest (after (login username password) s) in
      (value (login username password) s :: outcomes, s')
  end.

(** The stored digest and the digest of [password] both exist and differ:
    the [else] branch of the comparison in [login]. *)
Definition digest_differs (stored password : str) : bool :=
  match _hash_password password with
  | Return d => negb (bool_decide (stored = d))
  | Raise _ => false
  end.

(** [attempt] is a wrong password for an account registered with
    [password]. *)
Definition wrong_password (password attempt : str) : bool :=
  match _hash_password password with
  | Return d => digest_differs d attempt
  | Raise _ => false
  end.

End Auth.

Import Auth.

(** Concrete users, passwords and systems for the examples. *)
Module Demo.

Definition alice : str := Text.lit "alice"%string.
Definition secret1 : str := Text.lit "secret1"%string.
Definition wrong : str := Text.lit "wrong"%string.
Definition ghost : str := Text.lit "ghost"%string.

(** Thirty-one times the letter a. *)
Definition long_name : str := repeat 97%N 31.

(** A new [AuthSystem] over a file that does not exist yet, on a disk that
    accepts writes. *)
Definition fresh : state :=
  __init__ Absent (fun _ => None) (Text.lit "2024-01-01T12:00:00.000000"%string).

(** The same over an empty file, as [tempfile.NamedTemporaryFile] leaves
    it in the test suite. *)
Definition fresh_empty_file : state :=
  __init__ Malformed (fun _ => None) (Text.lit "2024-01-01T12:00:00.000000"%string).

(** [alice] registered, then three wrong passwords. *)
Definition alice_registered : state :=
  after (register_user alice secret1) fresh.

Definition alice_blocked : state :=
  snd (logins alice [wrong; wrong; wrong] alice_registered).

End Demo.

(** Sequences of calls on one [AuthSystem], as a front end or a test makes
    them. *)
Module Trace.

Inductive call :=
| Login (username password : str)
| Register (username password : str)
| Unblock (username : str)
| Exists (username : str)
| Count.

(** The state one call leaves, whatever it returns or raises. *)
Definition step (c : call) (s : state) : state :=
  match c with
  | Login u p => after (login u p) s
  | Register u p => after (register_user u p) s
  | Unblock u => after (unblock_user u) s
  | Exists u => after (user_exists u) s
  | Count => after get_user_count s
  end.

Definition run_calls (cs : list call) (s : state) : state :=
  fold_left (fun s c => step c s) cs s.

(** Every recorded failure count lies between one and the threshold. *)
Definition counts_bounded (s : state) : Prop :=
  forall u n, failed_attempts s !! u = Some n -> 1 <= n <= max_attempts s.

(** Every stored password field has the shape of a digest. *)
Definition is_digest (d : str) : bool :=
  (length d =? 64)%nat && forallb Text.is_lower_hex d.

Definition digests_stored (s : state) : Prop :=
  forall u entry,
    read_file (users_file s) !! u = Some entry ->
    is_digest (User.password entry) = true.

(** The disk accepts every write. *)
Definition disk_ok (s : state) : Prop :=
  forall users, write_fault s users = None.

(** A code point UTF-8 can carry: below U+110000 and not a surrogate. *)
Definition scalar_value (c : N) : bool :=
  ((c <? 0xD800) || (0xDFFF <? c) && (c <? 0x110000))%N.

(** The call is [unblock_user] for [u]. *)
Definition unblocks (u : str) (c : call) : bool :=
  match c with
  | Unblock v => bool_decide (v = u)
  | _ => false
  end.

(** What [login] answers after a failed password check that brought the
    count to [n]. *)
Definition failure_message (max n : Z) : message :=
  if max <=? n then UserBlocked max else WrongPassword (max - n).

End Trace.

(** Files and disks that fail, for the examples. *)
Module Faults.

(** A system over a file whose bytes are not UTF-8. *)
Definition undecodable : state :=
  __init__ Undecodable (fun _ => None) (Text.lit "2024-01-01T12:00:00.000000"%string).





End Faults.

(* ===================================================================== *)
(** ** The interactive front end *)
(* ===================================================================== *)

(** [src/main.py], class [LoginInterface].  The state is the [AuthSystem]
    it owns, [current_user], and what the user will type: the lines
    [input()] returns and the passwords [getpass()] returns.  What is
    written to the screen ([print], [clear_screen]) is not modelled. *)
Module LoginInterface.

Record ui := UI {
  auth : state;
  current_user : option str;
  stdin : list str;
  tty : list str
}.

Definition set_auth (a : state) (s : ui) : ui :=
  UI a (current_user s) (stdin s) (tty s).
Definition set_current_user (u : option str) (s : ui) : ui :=
  UI (auth s) u (stdin s) (tty s).
Definition set_stdin (l : list str) (s : ui) : ui :=
  UI (auth s) (current_user s) l (tty s).
Definition set_tty (l : list str) (s : ui) : ui :=
  UI (auth s) (current_user s) (stdin s) l.

(** [EOFError]: [input()] or [getpass()] at the end of the input;
    [AttributeError]: a method called on [None]; [Escaped e]: an exception
    of an [AuthSystem] method. *)
Inductive exc :=
| EOFError
| AttributeError
| Escaped (e : exn).

Inductive res (A : Type) :=
| Ok (a : A)
| Err (e : exc).
Arguments Ok {A} a.
Arguments Err {A} e.

(** [None] is a loop that ran out of fuel. *)
Definition IO (A : Type) : Type := ui -> option (res A * ui).

Definition pure {A} (a : A) : IO A := fun s => Some (Ok a, s).

Definition throw {A} (e : exc) : IO A := fun s => Some (Err e, s).

Definition and_then {A B} (m : IO A) (k : A -> IO B) : IO B :=
  fun s =>
    match m s with
    | Some (Ok a, s') => k a s'
    | Some (Err e, s') => Some (Err e, s')
    | None => None
    end.

Notation "'let!' x ':=' m 'in' k" := (and_then m (fun x => k))
  (at level 10, x name, m at level 100, k at level 200).

(** A method call on [self.auth]. *)
Definition call {A} (m : M A) : IO A :=
  fun s =>
    match m (auth s) with
    | (Return a, a') => Some (Ok a, set_auth a' s)
    | (Raise e, a') => Some (Err (Escaped e), set_auth a' s)
    end.

(** [input(prompt)] *)
Definition input : IO str :=
  fun s =>
    match stdin s with
    | line :: rest => Some (Ok line, set_stdin rest s)
    | [] => Some (Err EOFError, s)
    end.

(** [getpass(prompt)] *)
Definition getpass : IO str :=
  fun s =>
    match tty s with
    | line :: rest => Some (Ok line, set_tty rest s)
    | [] => Some (Err EOFError, s)
    end.

(** [input("Presiona Enter para continuar...")], the answer dropped. *)
Definition pause : IO unit := let! _ := input in pure tt.

(** [c.isspace()], the characters [str.strip()] removes. *)
Definition isspace (c : N) : bool :=
  ((9 <=? c) && (c <=? 13) || (28 <=? c) && (c <=? 32)
   || (c =? 0x85) || (c =? 0xA0) || (c =? 0x1680)
   || (0x2000 <=? c) && (c <=? 0x200A)
   || (c =? 0x2028) || (c =? 0x2029) || (c =? 0x202F)
   || (c =? 0x205F) || (c =? 0x3000))%N.

Fixpoint lstrip (s : str) : str :=
  match s with
  | c :: rest => if isspace c then lstrip rest else s
  | [] => []
  end.

Definition rstrip (s : str) : str := rev (lstrip (rev s)).

Definition strip (s : str) : str := rstrip (lstrip s).

(** The [while True] loop of [get_user_input] over the lines to come: the
    first line that fits after stripping, and the lines left. *)
Fixpoint first_fitting (max_length : Z) (lines : list str) : res str * list str :=
  match lines with
  | line :: rest =>
      let user_input := strip line in
      if Z.of_nat (length user_input) <=? max_length then (Ok user_input, rest)
      else first_fitting max_length rest
  | [] => (Err EOFError, [])
  end.

Definition get_user_input (max_length : Z) : IO str :=
  fun s =>
    let (r, rest) := first_fitting max_length (stdin s) in
    Some (r, set_stdin rest s).

Definition get_password_input : IO str := getpass.

(** [if self.current_user:] *)
Definition logged_in (s : ui) : bool :=
  match current_user s with
  | Some u => negb (falsy u)
  | None => false
  end.

Definition register_user : IO unit :=
  let! username := get_user_input 30 in
  if falsy username then pause
  else
    let! taken := call (user_exists username) in
    if taken then pause
    else
      let! password := get_password_input in
      if falsy password then pause
      else
        let! confirm_password := get_password_input in
        if negb (bool_decide (password = confirm_password)) then pause
        else
          let! _ := call (Auth.register_user username password) in
          pause.

Definition show_stats : IO unit :=
  let! _ := call get_user_count in pause.

Definition show_account_info : IO unit :=
  let! _ := (fun s => if logged_in s
                      then (let! _ := call _load_users in pure tt) s
                      else pure tt s) in
  pause.

(** [self.current_user.upper()] in the header of the menu. *)
Definition show_user_menu : IO unit :=
  fun s =>
    match current_user s with
    | Some _ => Some (Ok tt, s)
    | None => Some (Err AttributeError, s)
    end.

Definition change_user : IO unit :=
  let! _ := (fun s => Some (Ok tt, set_current_user None s)) in pause.

Definition logout : IO unit :=
  let! _ := (fun s => Some (Ok tt, set_current_user None s)) in pause.

Definition is_choice (digit : string) (choice : str) : bool :=
  bool_decide (choice = Text.lit digit).

Fixpoint user_session (fuel : nat) : IO unit :=
  match fuel with
  | O => fun _ => None
  | S fuel' =>
      let! _ := show_user_menu in
      let! line := input in
      let choice := strip line in
      if is_choice "1" choice then
        let! _ := show_account_info in user_session fuel'
      else if is_choice "2" choice then change_user
      else if is_choice "3" choice then
        let! _ := show_stats in user_session fuel'
      else if is_choice "4" choice then logout
      else
        let! _ := pause in user_session fuel'
  end.

Definition login_user (fuel : nat) : IO unit :=
  let! username := get_user_input 30 in
  if falsy username then pause
  else
    let! password := get_password_input in
    if falsy password then pause
    else
      let! outcome := call (login username password) in
      if fst outcome then
        let! _ := (fun s => Some (Ok tt, set_current_user (Some username) s)) in
        let! _ := pause in
        user_session fuel
      else pause.

Fixpoint run (fuel : nat) : IO unit :=
  match fuel with
  | O => fun _ => None
  | S fuel' =>
      fun s =>
        if logged_in s then
          (let! _ := user_session fuel' in run fuel') s
        else
          (let! line := input in
           let choice := strip line in
           if is_choice "1" choice then
             let! _ := register_user in run fuel'
           else if is_choice "2" choice then
             let! _ := login_user fuel' in run fuel'
           else if is_choice "3" choice then
             let! _ := show_stats in run fuel'
           else if is_choice "4" choice then pure tt
           else
             let! _ := pause in run fuel') s
  end.

(** [LoginInterface()] *)
Definition __init__ (file : file_state)
    (fault : gmap str User.record -> option file_state) (now : str)
    (lines passwords : list str) : ui :=
  UI (Auth.__init__ file fault now) None lines passwords.

(** [main()]: the exit status, 0 when [run] returns and 1 from
    [sys.exit(1)] in the handler of [Exception]. *)
Definition main (fuel : nat) (s : ui) : option (Z * ui) :=
  match run fuel s with
  | Some (Ok _, s') => Some (0, s')
  | Some (Err _, s') => Some (1, s')
  | None => None
  end.

(** [m] started in [s] ends, returning or raising, in a state and with a
    result that satisfy [post]. *)
Definition ends {A} (m : IO A) (s : ui) (post : res A -> ui -> Prop) : Prop :=
  exists r s', m s = Some (r, s') /\ post r s'.

(** From [s] to [s'] input was only consumed. *)
Definition reads (s s' : ui) : Prop :=
  stdin s' `suffix_of` stdin s /\ tty s' `suffix_of` tty s.

(** As [reads], and the users file, the threshold, the disk and the clock
    are as they were. *)
Definition quiet (s s' : ui) : Prop :=
  reads s s' /\
  users_file (auth s') = users_file (auth s) /\
  max_attempts (auth s') = max_attempts (auth s) /\
  write_fault (auth s') = write_fault (auth s) /\
  clock (auth s') = clock (auth s).

(** The line is too long for [get_user_input] even after stripping. *)
Definition too_long (max_length : Z) (line : str) : Prop :=
  max_length < Z.of_nat (length (strip line)).

(** What the front end's [register_user] guarantees; [s] is the state it
    starts in. *)
Definition registration_post (s : ui) (r : res unit) (s' : ui) : Prop :=
  reads s s' /\
  current_user s' = current_user s /\
  failed_attempts (auth s') = failed_attempts (auth s) /\
  r <> Err AttributeError /\
  (forall u entry,
      read_file (users_file (auth s)) !! u = Some entry ->
      read_file (users_file (auth s')) !! u = Some entry) /\
  (forall u entry,
      read_file (users_file (auth s)) !! u = None ->
      read_file (users_file (auth s')) !! u = Some entry ->
      (3 <= length u <= 30)%nat /\
      strip u = u /\
      exists password rest,
        tty s = password :: password :: rest /\
        (6 <= length password)%nat /\
        _hash_password password = Return (User.password entry)).

(** A step that only waits for the user: nothing changes but the input
    consumed. *)
Definition idle (s : ui) (r : res unit) (s' : ui) : Prop :=
  auth s' = auth s /\ current_user s' = current_user s /\ reads s s' /\
  r <> Err AttributeError.







End LoginInterface.

(** A scripted user for the examples: registers bob, logs in, looks at the
    statistics, logs out and leaves. *)
Module Visit.

Definition lines : list str :=
  map Text.lit
    [" 1 "; "  bob  "; "ok"; "2"; "bob"; "ok"; "3"; "ok"; "4"; "ok"; "4"]%string.

Definition passwords : list str :=
  map Text.lit ["hunter22"; "hunter22"; "hunter22"]%string.

Definition start : LoginInterface.ui :=
  LoginInterface.__init__ Absent (fun _ => None)
    (Text.lit "2024-01-01T12:00:00.000000"%string) lines passwords.


End Visit.

(* ===================================================================== *)
(** ** The configuration module *)
(* ===================================================================== *)

(** [src/config.py]: the entries of [SECURITY_CONFIG] and [FILE_CONFIG]
    that [validate_config] reads.  The dictionaries are module globals, so
    the function is modelled over their current values. *)
Module Config.

Record config := Build {
  max_failed_attempts : Z;
  min_username_length : Z;
  max_username_length : Z;
  min_password_length : Z;
  max_password_length : Z;
  users_file : str;
  json_indent : Z
}.

(** The values the module ships with. *)
Definition shipped : config :=
  Build 3 3 30 6 100 (Text.lit "users.json"%string) 4.

(** The seven texts [validate_config] can append to [errors]:
    - [BadMaxFailedAttempts]: "max_failed_attempts debe ser mayor a 0"
    - [BadMinUsernameLength]: "min_username_length debe ser mayor a 0"
    - [BadMinPasswordLength]: "min_password_length debe ser mayor a 0"
    - [BadUsernameRange]: "min_username_length no puede ser mayor que max_username_length"
    - [BadPasswordRange]: "min_password_length no puede ser mayor que max_password_length"
    - [EmptyUsersFile]: "users_file no puede estar vacío"
    - [BadJsonIndent]: "json_indent debe ser mayor o igual a 0" *)
Inductive config_error :=
| BadMaxFailedAttempts
| BadMinUsernameLength
| BadMinPasswordLength
| BadUsernameRange
| BadPasswordRange
| EmptyUsersFile
| BadJsonIndent.

(** The second component of the result: "Configuración válida", or the
    errors joined by "; ". *)
Inductive verdict :=
| Valid
| Errors (errors : list config_error).

(** [if cond: errors.append(e)] *)
Definition check (cond : bool) (e : config_error) (errors : list config_error)
  : list config_error :=
  if cond then errors ++ [e] else errors.

Definition validate_config (c : config) : bool * verdict :=
  let errors := [] in
  let errors := check (max_failed_attempts c <? 1) BadMaxFailedAttempts errors in
  let errors := check (min_username_length c <? 1) BadMinUsernameLength errors in
  let errors := check (min_password_length c <? 1) BadMinPasswordLength errors in
  let errors := check (max_username_length c <? min_username_length c)
                      BadUsernameRange errors in
  let errors := check (max_password_length c <? min_password_length c)
                      BadPasswordRange errors in
  let errors := check (falsy (users_file c)) EmptyUsersFile errors in
  let errors := check (json_indent c <? 0) BadJsonIndent errors in
  match errors with
  | _ :: _ => (false, Errors errors)
  | [] => (true, Valid)
  end.

(** The condition under which the source appends each error. *)
Definition violated (c : config) (e : config_error) : Prop :=
  match e with
  | BadMaxFailedAttempts => max_failed_attempts c < 1
  | BadMinUsernameLength => min_username_length c < 1
  | BadMinPasswordLength => min_password_length c < 1
  | BadUsernameRange => min_username_length c > max_username_length c
  | BadPasswordRange => min_password_length c > max_password_length c
  | EmptyUsersFile => users_file c = []
  | BadJsonIndent => json_indent c < 0
  end.

End Config.

(* ===================================================================== *)
(** ** Test vectors of the hash *)
(* ===================================================================== *)

Example sha256_empty :
  SHA256.hexdigest [] =
  Text.lit "e3b0c44298fc1c149afbf4c8996fb92427ae41e4649b934ca495991b7852b855"%string.
Proof. vm_compute. reflexivity. Qed.

Example sha256_abc :
  SHA256.hexdigest [97; 98; 99] =
  Text.lit "ba7816bf8f01cfea414140de5dae2223b00361a396177a9cb410ff61f20015ad"%string.
Proof. vm_compute. reflexivity. Qed.

Example sha256_two_blocks :
  option_map SHA256.hexdigest
    (Text.encode (Text.lit "abcdbcdecdefdefgefghfghighijhijkijkljklmklmnlmnomnopnopq"%string)) =
  Some (Text.lit "248d6a61d20638b8e5c026930c3e6039a33ce45964ff2167f6ecedd419db06c1"%string).
Proof. vm_compute. reflexivity. Qed.

Example hash_secret1 :
  _hash_password Demo.secret1 =
  Return (Text.lit "5b11618c2e44027877d0cd0921ed166b9f176f50587fc91e7534dd2946db77d6"%string).
Proof. vm_compute. reflexivity. Qed.

(** A two-byte character: "ñ" is U+00F1, [0xC3; 0xB1] in UTF-8. *)
Example hash_non_ascii :
  _hash_password (Text.lit "mi_contrase"%string ++ [0xF1%N] ++ Text.lit "a_secreta"%string) =
  Return (Text.lit "a657efaa7ed438a48bb2468674deffdc739daa339841bec265c00929d02b3c85"%string).
Proof. vm_compute. reflexivity. Qed.

Example hash_lone_surrogate :
  _hash_password [0xD800%N] = Raise UnicodeEncodeError.
Proof. reflexivity. Qed.

(* ===================================================================== *)
(** ** Equations of the methods, one per path through the code *)
(* ===================================================================== *)

Ltac run :=
  unfold after, value, login, register_user, unblock_user, user_exists,
    get_user_count, _is_user_blocked, _save_users,
    _get_current_timestamp, _increment_failed_attempts,
    _reset_failed_attempts, bind, get, modify, lift, ret;
  simpl.

Lemma attempts_insert_eq (s : state) (u : str) (n : Z) (fa : gmap str Z) :
  attempts u (set_failed_attempts (<[u := n]> fa) s) = n.
Proof. unfold attempts. simpl. rewrite lookup_insert_eq. reflexivity. Qed.

Lemma attempts_insert_ne (s : state) (u v : str) (n : Z) (fa : gmap str Z) :
  u <> v ->
  attempts v (set_failed_attempts (<[u := n]> fa) s) =
  attempts v (set_failed_attempts fa s).
Proof. intros H. unfold attempts. simpl. rewrite lookup_insert_ne by exact H. reflexivity. Qed.

Lemma attempts_None (s : state) (u : str) :
  failed_attempts s !! u = None -> attempts u s = 0.
Proof. intros H. unfold attempts. rewrite H. reflexivity. Qed.

(** [_load_users] by the kind of file. *)
Lemma _load_users_eq (s : state) :
  _load_users s =
  match load_error (users_file s) with
  | Some e => (Raise e, s)
  | None => (Return (read_file (users_file s)), s)
  end.
Proof. unfold _load_users, bind, get, ret, lift. destruct (users_file s); reflexivity. Qed.

Lemma user_exists_eq (s : state) (u : str) :
  user_exists u s =
  match load_error (users_file s) with
  | Some e => (Raise e, s)
  | None => (Return (bool_decide (is_Some (read_file (users_file s) !! u))), s)
  end.
Proof.
  unfold user_exists, bind. rewrite _load_users_eq.
  destruct (load_error (users_file s)); reflexivity.
Qed.

Lemma get_user_count_eq (s : state) :
  get_user_count s =
  match load_error (users_file s) with
  | Some e => (Raise e, s)
  | None => (Return (size (read_file (users_file s))), s)
  end.
Proof.
  unfold get_user_count, bind. rewrite _load_users_eq.
  destruct (load_error (users_file s)); reflexivity.
Qed.

Lemma read_file_Some_readable (file : file_state) (u : str) (entry : User.record) :
  read_file file !! u = Some entry -> load_error file = None.
Proof.
  destruct file; simpl; try reflexivity; rewrite lookup_empty; discriminate.
Qed.

Lemma load_returns_readable (s : state) (users : gmap str User.record) :
  value _load_users s = Return users ->
  load_error (users_file s) = None /\ read_file (users_file s) = users.
Proof.
  unfold value. rewrite _load_users_eq.
  destruct (load_error (users_file s)); [discriminate |].
  intros [= <-]. split; reflexivity.
Qed.

Lemma _hash_password_Raise (p : str) (e : exn) :
  _hash_password p = Raise e -> e = UnicodeEncodeError.
Proof. unfold _hash_password. destruct (Text.encode p); [discriminate | congruence]. Qed.

(** The whole of [login] as one equation. *)
Lemma login_eq (s : state) (u p : str) :
  login u p s =
  if max_attempts s <=? attempts u s
  then (Return (false, UserBlocked (max_attempts s)), s)
  else
    match load_error (users_file s) with
    | Some e => (Raise e, s)
    | None =>
        match read_file (users_file s) !! u with
        | None =>
            (Return (false, UserNotFound),
             set_failed_attempts (<[u := attempts u s + 1]> (failed_attempts s)) s)
        | Some entry =>
            match _hash_password p with
            | Raise e => (Raise e, s)
            | Return d =>
                if bool_decide (User.password entry = d)
                then (Return (true, LoginOk),
                      set_failed_attempts (delete u (failed_attempts s)) s)
                else
                  (Return (false,
                           if max_attempts s - (attempts u s + 1) <=? 0
                           then UserBlocked (max_attempts s)
                           else WrongPassword (max_attempts s - (attempts u s + 1))),
                   set_failed_attempts
                     (<[u := attempts u s + 1]> (failed_attempts s)) s)
            end
        end
    end.
Proof.
  unfold login, _is_user_blocked. unfold bind at 1 2 3. unfold get, ret. cbv beta iota.
  destruct (max_attempts s <=? attempts u s); [reflexivity |].
  unfold bind at 1. rewrite _load_users_eq.
  destruct (load_error (users_file s)); [reflexivity |].
  destruct (read_file (users_file s) !! u) as [entry |].
  - unfold bind at 1, lift. destruct (_hash_password p) as [d | e]; [| reflexivity].
    destruct (bool_decide (User.password entry = d)).
    + unfold _reset_failed_attempts, bind, get, modify, ret. simpl.
      destruct (failed_attempts s !! u) eqn:E; [reflexivity |].
      rewrite delete_id by exact E. destruct s; reflexivity.
    + unfold _increment_failed_attempts, bind, get, modify, ret. simpl.
      rewrite attempts_insert_eq.
      destruct (max_attempts s - (attempts u s + 1) <=? 0); reflexivity.
  - unfold _increment_failed_attempts, bind, get, modify, ret. reflexivity.
Qed.

Section Paths.

Variable s : state.
Variables username password : str.

Let users := read_file (users_file s).

Lemma blocked_iff :
  value (_is_user_blocked username) s = Return true <->
  max_attempts s <= attempts username s.
Proof.
  run. split.
  - intros H. injection H as H. lia.
  - intros H. f_equal. lia.
Qed.

Lemma not_blocked_iff :
  value (_is_user_blocked username) s = Return false <->
  attempts username s < max_attempts s.
Proof.
  run. split.
  - intros H. injection H as H. lia.
  - intros H. f_equal. lia.
Qed.

Lemma login_blocked :
  max_attempts s <= attempts username s ->
  login username password s = (Return (false, UserBlocked (max_attempts s)), s).
Proof.
  intros H. rewrite login_eq.
  destruct (Z.leb_spec (max_attempts s) (attempts username s)); [reflexivity | lia].
Qed.

Lemma login_load_fails e :
  attempts username s < max_attempts s ->
  load_error (users_file s) = Some e ->
  login username password s = (Raise e, s).
Proof.
  intros H He. rewrite login_eq.
  destruct (Z.leb_spec (max_attempts s) (attempts username s)); [lia |].
  rewrite He. reflexivity.
Qed.

Lemma login_not_found :
  attempts username s < max_attempts s ->
  load_error (users_file s) = None ->
  users !! username = None ->
  login username password s =
  (Return (false, UserNotFound),
   set_failed_attempts
     (<[username := attempts username s + 1]> (failed_attempts s)) s).
Proof.
  intros H Hl Hu. subst users. rewrite login_eq.
  destruct (Z.leb_spec (max_attempts s) (attempts username s)); [lia |].
  rewrite Hl, Hu. reflexivity.
Qed.

Lemma login_raises entry :
  attempts username s < max_attempts s ->
  users !! username = Some entry ->
  _hash_password password = Raise UnicodeEncodeError ->
  login username password s = (Raise UnicodeEncodeError, s).
Proof.
  intros H Hu Hh. subst users. rewrite login_eq.
  destruct (Z.leb_spec (max_attempts s) (attempts username s)); [lia |].
  rewrite (read_file_Some_readable _ _ _ Hu), Hu, Hh. reflexivity.
Qed.

Lemma login_ok entry :
  attempts username s < max_attempts s ->
  users !! username = Some entry ->
  _hash_password password = Return (User.password entry) ->
  login username password s =
  (Return (true, LoginOk),
   set_failed_attempts (delete username (failed_attempts s)) s).
Proof.
  intros H Hu Hh. subst users. rewrite login_eq.
  destruct (Z.leb_spec (max_attempts s) (attempts username s)); [lia |].
  rewrite (read_file_Some_readable _ _ _ Hu), Hu, Hh.
  rewrite bool_decide_eq_true_2 by reflexivity. reflexivity.
Qed.

Lemma login_mismatch entry :
  attempts username s < max_attempts s ->
  users !! username = Some entry ->
  digest_differs (User.password entry) password = true ->
  login username password s =
  (Return (false,
           if max_attempts s - (attempts username s + 1) <=? 0
           then UserBlocked (max_attempts s)
           else WrongPassword (max_attempts s - (attempts username s + 1))),
   set_failed_attempts
     (<[username := attempts username s + 1]> (failed_attempts s)) s).
Proof.
  intros H Hu Hd. subst users. unfold digest_differs in Hd. rewrite login_eq.
  destruct (Z.leb_spec (max_attempts s) (attempts username s)); [lia |].
  rewrite (read_file_Some_readable _ _ _ Hu), Hu.
  destruct (_hash_password password) as [d | e]; [| discriminate].
  apply negb_true_iff in Hd. rewrite Hd. reflexivity.
Qed.

End Paths.

Section RegisterPaths.

Variable s : state.
Variables username password : str.

Let users := read_file (users_file s).

Lemma falsy_length (t : str) : falsy t = false <-> (0 < length t)%nat.
Proof. destruct t; simpl; split; intros; try lia; try discriminate; reflexivity. Qed.

Lemma register_validated :
  (3 <= length username)%nat ->
  (6 <= length password)%nat ->
  register_user username password s =
  match load_error (users_file s) with
  | Some e => (Raise e, s)
  | None =>
      match users !! username with
      | Some _ => (Return (false, UserAlreadyExists), s)
      | None =>
          match _hash_password password with
          | Raise e => (Raise e, s)
          | Return d =>
              let users' := <[username := User.Record d (clock s)]> users in
              match write_fault s users' with
              | None => (Return (true, Registered), set_users_file (Stored users') s)
              | Some remains => (Return (false, SaveError), set_users_file remains s)
              end
          end
      end
  end.
Proof.
  intros Hu Hp. subst users. unfold register_user.
  assert (falsy username = false) as -> by (apply falsy_length; lia).
  assert (falsy password = false) as -> by (apply falsy_length; lia).
  simpl orb. cbv iota.
  destruct (Nat.ltb_spec (length username) 3); [lia |].
  destruct (Nat.ltb_spec (length password) 6); [lia |].
  change (false || false) with false. cbv beta iota.
  unfold bind at 1. cbv beta. rewrite _load_users_eq.
  destruct (load_error (users_file s)); [reflexivity |].
  run. destruct (read_file (users_file s) !! username); [reflexivity |].
  destruct (_hash_password password); [| reflexivity].
  simpl. destruct (write_fault s _); reflexivity.
Qed.

Lemma register_rejected :
  (length username < 3)%nat \/ (length password < 6)%nat ->
  exists m, is_validation_error m = true /\
            register_user username password s = (Return (false, m), s).
Proof.
  intros H. unfold register_user.
  destruct (falsy username || falsy password) eqn:E.
  { exists EmptyCredentials. split; reflexivity. }
  destruct (Nat.ltb_spec (length username) 3).
  { exists UsernameTooShort. split; reflexivity. }
  destruct (Nat.ltb_spec (length password) 6).
  { exists PasswordTooShort. split; reflexivity. }
  lia.
Qed.

Lemma register_saved d :
  (3 <= length username)%nat ->
  (6 <= length password)%nat ->
  load_error (users_file s) = None ->
  users !! username = None ->
  _hash_password password = Return d ->
  write_fault s (<[username := User.Record d (clock s)]> users) = None ->
  register_user username password s =
  (Return (true, Registered),
   set_users_file (Stored (<[username := User.Record d (clock s)]> users)) s).
Proof.
  intros Hu Hp Hl Hn Hh Hw. rewrite register_validated by assumption.
  fold users. rewrite Hl, Hn, Hh. simpl. rewrite Hw. reflexivity.
Qed.

Lemma register_load_fails e :
  (3 <= length username)%nat ->
  (6 <= length password)%nat ->
  load_error (users_file s) = Some e ->
  register_user username password s = (Raise e, s).
Proof.
  intros Hu Hp Hl. rewrite register_validated by assumption.
  rewrite Hl. reflexivity.
Qed.

(** A registration that reports success went through every check and
    wrote the new entry. *)
Lemma register_success_inv :
  value (register_user username password) s = Return (true, Registered) ->
  exists d,
    _hash_password password = Return d /\
    users !! username = None /\
    after (register_user username password) s =
    set_users_file (Stored (<[username := User.Record d (clock s)]> users)) s.
Proof.
  unfold value, after.
  destruct (le_lt_dec 3 (length username)) as [Hu | Hu];
    [destruct (le_lt_dec 6 (length password)) as [Hp | Hp] |].
  - rewrite register_validated by assumption. fold users.
    destruct (load_error (users_file s)); [discriminate |].
    destruct (users !! username); [discriminate |].
    destruct (_hash_password password) as [d | e]; [| discriminate].
    simpl. destruct (write_fault s _); [discriminate |].
    intros _. exists d. repeat split.
  - destruct register_rejected as (m & Hm & ->); [right; exact Hp |]. discriminate.
  - destruct register_rejected as (m & Hm & ->); [left; exact Hu |]. discriminate.
Qed.

(** A registration that reports success has read the file. *)
Lemma register_success_readable :
  value (register_user username password) s = Return (true, Registered) ->
  load_error (users_file s) = None.
Proof.
  unfold value.
  destruct (le_lt_dec 3 (length username)) as [Hu | Hu];
    [destruct (le_lt_dec 6 (length password)) as [Hp | Hp] |].
  - rewrite register_validated by assumption.
    destruct (load_error (users_file s)); [discriminate | reflexivity].
  - destruct register_rejected as (m & Hm & ->); [right; exact Hp |]. discriminate.
  - destruct register_rejected as (m & Hm & ->); [left; exact Hu |]. discriminate.
Qed.

End RegisterPaths.

(** What the value of a call depends on: [register_user] looks at what the
    load gives, the clock and the disk, [login] at what the load gives for
    the name, its count and the threshold. *)
Lemma register_value_frame (s1 s2 : state) (u p : str) :
  load_error (users_file s1) = load_error (users_file s2) ->
  read_file (users_file s1) = read_file (users_file s2) ->
  clock s1 = clock s2 ->
  write_fault s1 = write_fault s2 ->
  value (register_user u p) s1 = value (register_user u p) s2.
Proof.
  intros Hl Hu Hc Hw. unfold value.
  destruct (le_lt_dec 3 (length u)) as [Hlu | Hlu];
    [destruct (le_lt_dec 6 (length p)) as [Hlp | Hlp] |].
  - rewrite !register_validated by assumption. rewrite Hl, Hu, Hc, Hw.
    destruct (load_error (users_file s2)); [reflexivity |].
    destruct (read_file (users_file s2) !! u); [reflexivity |].
    destruct (_hash_password p); [| reflexivity].
    simpl. destruct (write_fault s2 _); reflexivity.
  - unfold register_user.
    destruct (falsy u || falsy p); [reflexivity |].
    destruct (length u <? 3)%nat; [reflexivity |].
    destruct (Nat.ltb_spec (length p) 6); [reflexivity | lia].
  - unfold register_user.
    destruct (falsy u || falsy p); [reflexivity |].
    destruct (Nat.ltb_spec (length u) 3); [reflexivity | lia].
Qed.

Lemma login_value_frame (s1 s2 : state) (u p : str) :
  load_error (users_file s1) = load_error (users_file s2) ->
  read_file (users_file s1) !! u = read_file (users_file s2) !! u ->
  attempts u s1 = attempts u s2 ->
  max_attempts s1 = max_attempts s2 ->
  value (login u p) s1 = value (login u p) s2.
Proof.
  intros Hl Hu Ha Hm. unfold value. rewrite !login_eq. rewrite Hl, Hu, Ha, Hm.
  destruct (max_attempts s2 <=? attempts u s2); [reflexivity |].
  destruct (load_error (users_file s2)); [reflexivity |].
  destruct (read_file (users_file s2) !! u) as [entry |]; [| reflexivity].
  destruct (_hash_password p) as [d | e]; [| reflexivity].
  destruct (bool_decide (User.password entry = d)); reflexivity.
Qed.

(* ===================================================================== *)
(** ** Lockout after repeated failures *)
(* ===================================================================== *)

(** One failed password check on an existing, unblocked account: what the
    call returns and what it leaves. *)
Lemma login_mismatch_after (s : state) (u p : str) (entry : User.record) :
  attempts u s < max_attempts s ->
  read_file (users_file s) !! u = Some entry ->
  digest_differs (User.password entry) p = true ->
  let s' := after (login u p) s in
  users_file s' = users_file s /\
  max_attempts s' = max_attempts s /\
  attempts u s' = attempts u s + 1 /\
  value (login u p) s =
  Return (false,
          if max_attempts s <=? attempts u s'
          then UserBlocked (max_attempts s)
          else WrongPassword (max_attempts s - attempts u s')).
Proof.
  intros Hb Hu Hd s'. subst s'. unfold after, value.
  rewrite (login_mismatch s u p entry Hb Hu Hd). simpl.
  rewrite attempts_insert_eq. repeat split.
  destruct (Z.leb_spec (max_attempts s - (attempts u s + 1)) 0);
    destruct (Z.leb_spec (max_attempts s) (attempts u s + 1));
    try reflexivity; lia.
Qed.

(** C1. A freshly registered user (threshold 3, no failure recorded) who
    gives a wrong password three times is told "2 left", "1 left" and then
    "blocked"; the account is then blocked, and a fourth call with the right
    password is refused as blocked and changes nothing. *)
Theorem lockout_after_three_failures (s : state) (u p w1 w2 w3 : str) :
  max_attempts s = 3 ->
  failed_attempts s !! u = None ->
  value (register_user u p) s = Return (true, Registered) ->
  wrong_password p w1 = true ->
  wrong_password p w2 = true ->
  wrong_password p w3 = true ->
  let s1 := after (register_user u p) s in
  let s2 := after (login u w1) s1 in
  let s3 := after (login u w2) s2 in
  let s4 := after (login u w3) s3 in
  value (login u w1) s1 = Return (false, WrongPassword 2) /\
  value (login u w2) s2 = Return (false, WrongPassword 1) /\
  value (login u w3) s3 = Return (false, UserBlocked 3) /\
  value (_is_user_blocked u) s4 = Return true /\
  login u p s4 = (Return (false, UserBlocked 3), s4).
Proof.
  intros Hmax Hnone Hreg H1 H2 H3 s1 s2 s3 s4.
  destruct (register_success_inv s u p Hreg) as (d & Hd & Hfree & Hs1).
  fold s1 in Hs1.
  unfold wrong_password in H1, H2, H3. rewrite Hd in H1, H2, H3.
  set (entry := User.Record d (clock s)) in *.
  assert (Hu1 : read_file (users_file s1) !! u = Some entry).
  { rewrite Hs1. simpl. apply lookup_insert_eq. }
  assert (Hm1 : max_attempts s1 = 3) by (rewrite Hs1; exact Hmax).
  assert (Ha1 : attempts u s1 = 0).
  { apply attempts_None. rewrite Hs1. exact Hnone. }
  destruct (login_mismatch_after s1 u w1 entry) as (Hf2 & Hm2 & Ha2 & Hv1);
    [lia | exact Hu1 | exact H1 |].
  fold s2 in Hf2, Hm2, Ha2, Hv1.
  destruct (login_mismatch_after s2 u w2 entry) as (Hf3 & Hm3 & Ha3 & Hv2);
    [lia | rewrite Hf2; exact Hu1 | exact H2 |].
  fold s3 in Hf3, Hm3, Ha3, Hv2.
  destruct (login_mismatch_after s3 u w3 entry) as (Hf4 & Hm4 & Ha4 & Hv3);
    [lia | rewrite Hf3, Hf2; exact Hu1 | exact H3 |].
  fold s4 in Hf4, Hm4, Ha4, Hv3.
  rewrite Ha1 in Ha2. rewrite Ha2 in Ha3. rewrite Ha3 in Ha4. simpl in Ha2, Ha3, Ha4.
  rewrite Hm1 in Hm2. rewrite Hm2 in Hm3. rewrite Hm3 in Hm4.
  rewrite Hv1, Hv2, Hv3, Ha2, Ha3, Ha4, Hm1, Hm2, Hm3.
  repeat split.
  - apply blocked_iff. lia.
  - rewrite login_blocked by lia. rewrite Hm4. reflexivity.
Qed.

Lemma lockout_after_three_failures_witness :
  value (login Demo.alice Demo.wrong) Demo.alice_registered
    = Return (false, WrongPassword 2) /\
  login Demo.alice Demo.secret1 Demo.alice_blocked
    = (Return (false, UserBlocked 3), Demo.alice_blocked).
Proof.
  pose proof (lockout_after_three_failures Demo.fresh Demo.alice Demo.secret1
                Demo.wrong Demo.wrong Demo.wrong) as H.
  destruct H as (H1 & _ & _ & _ & H5);
    [reflexivity | reflexivity | vm_compute; reflexivity
    | vm_compute; reflexivity | vm_compute; reflexivity
    | vm_compute; reflexivity |].
  split; [exact H1 | exact H5].
Defined.

(** C5. A wrong password for an existing, unblocked account adds exactly one
    to that account's failure count and touches no other count; the call
    fails with "blocked" when the new count has reached the threshold and
    otherwise reports threshold minus new count attempts remaining. *)
Theorem wrong_password_counts_one_failure
    (s : state) (u p : str) (entry : User.record) :
  value (_is_user_blocked u) s = Return false ->
  read_file (users_file s) !! u = Some entry ->
  digest_differs (User.password entry) p = true ->
  let s' := after (login u p) s in
  attempts u s' = attempts u s + 1 /\
  (forall v, v <> u -> failed_attempts s' !! v = failed_attempts s !! v) /\
  value (login u p) s =
  Return (false,
          if max_attempts s <=? attempts u s'
          then UserBlocked (max_attempts s)
          else WrongPassword (max_attempts s - attempts u s')).
Proof.
  intros Hb Hu Hd s'. apply not_blocked_iff in Hb.
  destruct (login_mismatch_after s u p entry Hb Hu Hd) as (_ & _ & Ha & Hv).
  fold s' in Ha, Hv. repeat split; try assumption.
  intros v Hv'. subst s'. unfold after.
  rewrite (login_mismatch s u p entry Hb Hu Hd). simpl.
  apply lookup_insert_ne. congruence.
Qed.

Lemma wrong_password_counts_one_failure_witness :
  attempts Demo.alice (after (login Demo.alice Demo.wrong) Demo.alice_registered) = 1 /\
  value (login Demo.alice Demo.wrong) Demo.alice_registered
    = Return (false, WrongPassword 2).
Proof.
  destruct (wrong_password_counts_one_failure Demo.alice_registered Demo.alice
              Demo.wrong
              (User.Record
                 (Text.lit "5b11618c2e44027877d0cd0921ed166b9f176f50587fc91e7534dd2946db77d6"%string)
                 (clock Demo.fresh)))
    as (Ha & _ & Hv);
    [vm_compute; reflexivity | vm_compute; reflexivity | vm_compute; reflexivity |].
  split; [exact Ha | exact Hv].
Defined.

(* ===================================================================== *)
(** ** Unknown user names *)
(* ===================================================================== *)

(** Failed lookups in a row: each is reported as "not found", the count
    grows by one per call and nothing else changes. *)
Lemma logins_not_found (u : str) (passwords : list str) :
  forall s : state,
    load_error (users_file s) = None ->
    read_file (users_file s) !! u = None ->
    attempts u s + Z.of_nat (length passwords) <= max_attempts s ->
    let s' := snd (logins u passwords s) in
    fst (logins u passwords s)
      = repeat (Return (false, UserNotFound)) (length passwords) /\
    users_file s' = users_file s /\
    max_attempts s' = max_attempts s /\
    write_fault s' = write_fault s /\
    clock s' = clock s /\
    attempts u s' = attempts u s + Z.of_nat (length passwords) /\
    (forall v, v <> u -> failed_attempts s' !! v = failed_attempts s !! v).
Proof.
  induction passwords as [| p rest IH]; intros s Hl Hu Hle; simpl.
  - repeat split. lia.
  - simpl length in Hle.
    assert (Hstep : login u p s =
                    (Return (false, UserNotFound),
                     set_failed_attempts
                       (<[u := attempts u s + 1]> (failed_attempts s)) s)).
    { apply login_not_found; [lia | exact Hl | exact Hu]. }
    unfold after, value. rewrite Hstep. simpl.
    set (s1 := set_failed_attempts _ s).
    specialize (IH s1 Hl Hu).
    assert (Ha1 : attempts u s1 = attempts u s + 1) by apply attempts_insert_eq.
    destruct IH as (Hout & Hf & Hm & Hw & Hc & Ha & Hother).
    { rewrite Ha1. simpl. lia. }
    destruct (logins u rest s1) as [outcomes s']. simpl in *.
    rewrite Hout, Ha, Ha1. repeat split; try assumption; try lia.
    intros v Hv. rewrite Hother by exact Hv.
    apply lookup_insert_ne. congruence.
Qed.

(** C6. A login for a name that is not blocked and is absent from the
    mapping the load returns fails with "not found" and still counts as a
    failure.  Hence after as many such calls as the threshold, starting with
    no failure recorded, every further login for that name is refused as
    blocked, whatever the backing file is by then, even one that cannot be
    read. *)
Theorem unknown_user_failures_block
    (s : state) (u : str) (users : gmap str User.record) :
  value _load_users s = Return users ->
  users !! u = None ->
  (forall p,
      value (_is_user_blocked u) s = Return false ->
      value (login u p) s = Return (false, UserNotFound) /\
      attempts u (after (login u p) s) = attempts u s + 1) /\
  (forall passwords,
      failed_attempts s !! u = None ->
      Z.of_nat (length passwords) = max_attempts s ->
      let s' := snd (logins u passwords s) in
      fst (logins u passwords s)
        = repeat (Return (false, UserNotFound)) (length passwords) /\
      forall p file,
        login u p (set_users_file file s')
        = (Return (false, UserBlocked (max_attempts s)), set_users_file file s')).
Proof.
  intros Hload Hu. destruct (load_returns_readable s users Hload) as (Hl & <-).
  split.
  - intros p Hb. apply not_blocked_iff in Hb.
    unfold value, after. rewrite login_not_found by assumption. simpl.
    split; [reflexivity | apply attempts_insert_eq].
  - intros passwords Hnone Hlen s'.
    destruct (logins_not_found u passwords s Hl Hu) as (Hout & _ & Hm & _ & _ & Ha & _).
    { rewrite (attempts_None s u Hnone). lia. }
    fold s' in Hm, Ha. split; [exact Hout |].
    intros p file. rewrite login_blocked.
    + simpl. rewrite Hm. reflexivity.
    + unfold attempts in *. simpl. rewrite Hm. rewrite Ha.
      rewrite Hnone. simpl. lia.
Qed.

Lemma unknown_user_failures_block_witness :
  value (login Demo.ghost Demo.wrong) Demo.fresh = Return (false, UserNotFound) /\
  value (login Demo.ghost Demo.secret1)
        (snd (logins Demo.ghost [Demo.wrong; Demo.wrong; Demo.wrong] Demo.fresh))
    = Return (false, UserBlocked 3).
Proof.
  destruct (unknown_user_failures_block Demo.fresh Demo.ghost ∅) as (H1 & H2);
    [reflexivity | reflexivity |].
  split.
  - apply (H1 Demo.wrong). reflexivity.
  - destruct (H2 [Demo.wrong; Demo.wrong; Demo.wrong]) as (_ & Hb);
      [reflexivity | reflexivity |].
    exact (f_equal fst (Hb Demo.secret1 Undecodable)).
Defined.

(* ===================================================================== *)
(** ** Administrative unblock *)
(* ===================================================================== *)

(** C7. [unblock_user] removes the failure count of the name, leaves the
    other counts alone and answers true exactly when there was a count to
    remove.  After it, a blocked registered user who gives the right
    password logs in, and no failure count is left for that user. *)
Theorem unblock_then_login (s : state) (u : str) :
  (exists b,
      value (unblock_user u) s = Return b /\
      (b = true <-> is_Some (failed_attempts s !! u))) /\
  failed_attempts (after (unblock_user u) s) = delete u (failed_attempts s) /\
  (forall p entry,
      0 < max_attempts s ->
      value (_is_user_blocked u) s = Return true ->
      read_file (users_file s) !! u = Some entry ->
      _hash_password p = Return (User.password entry) ->
      let s' := after (unblock_user u) s in
      value (login u p) s' = Return (true, LoginOk) /\
      failed_attempts (after (login u p) s') !! u = None).
Proof.
  assert (Hafter : failed_attempts (after (unblock_user u) s)
                   = delete u (failed_attempts s)).
  { run. destruct (failed_attempts s !! u) eqn:E; simpl; [reflexivity |].
    symmetry. apply delete_id. exact E. }
  assert (Hsame : users_file (after (unblock_user u) s) = users_file s /\
                  max_attempts (after (unblock_user u) s) = max_attempts s).
  { run. destruct (failed_attempts s !! u); split; reflexivity. }
  split; [| split; [exact Hafter |]].
  - run. destruct (failed_attempts s !! u) eqn:E.
    + exists true. split; [reflexivity |]. split; [eauto | reflexivity].
    + exists false. split; [reflexivity |].
      split; [discriminate | intros [x Hx]; discriminate].
  - intros p entry Hpos _ Hu Hh s'. destruct Hsame as (Hf & Hm). fold s' in Hf, Hm, Hafter.
    assert (Hclear : failed_attempts s' !! u = None).
    { rewrite Hafter. apply lookup_delete_eq. }
    unfold value, after.
    rewrite (login_ok s' u p entry); simpl.
    + split; [reflexivity | apply lookup_delete_eq].
    + rewrite (attempts_None s' u Hclear). lia.
    + rewrite Hf. exact Hu.
    + exact Hh.
Qed.

Lemma unblock_then_login_witness :
  value (unblock_user Demo.alice) Demo.alice_blocked = Return true /\
  value (login Demo.alice Demo.secret1)
        (after (unblock_user Demo.alice) Demo.alice_blocked)
    = Return (true, LoginOk).
Proof.
  destruct (unblock_then_login Demo.alice_blocked Demo.alice) as (_ & _ & H).
  split; [vm_compute; reflexivity |].
  apply (H Demo.secret1
           (User.Record
              (Text.lit "5b11618c2e44027877d0cd0921ed166b9f176f50587fc91e7534dd2946db77d6"%string)
              (clock Demo.fresh)));
    [vm_compute; reflexivity | vm_compute; reflexivity
    | vm_compute; reflexivity | vm_compute; reflexivity].
Defined.

(* ===================================================================== *)
(** ** Registration *)
(* ===================================================================== *)

(** C2. The boundary cases of the registration checks: the empty user name
    (the empty list of code points), a user name of two characters and a password of five characters are each
    refused by validation and leave the state as it was; "abc" with "123456"
    is registered when the mapping the load returns does not contain the
    name and the write succeeds, and the stored digest is the hash of the
    password. *)
Theorem register_validation_boundaries (s : state) :
  register_user [] (Text.lit "abcdef"%string) s
    = (Return (false, EmptyCredentials), s) /\
  register_user (Text.lit "ab"%string) (Text.lit "abcdef"%string) s
    = (Return (false, UsernameTooShort), s) /\
  register_user (Text.lit "abc"%string) (Text.lit "12345"%string) s
    = (Return (false, PasswordTooShort), s) /\
  (forall users,
   value _load_users s = Return users ->
   users !! Text.lit "abc"%string = None ->
   write_fault s
     (<[Text.lit "abc"%string :=
          User.Record
            (Text.lit "8d969eef6ecad3c29a3a629280e686cf0c3f5d5a86aff3ca12020c923adc6c92"%string)
            (clock s)]> users) = None ->
   value (register_user (Text.lit "abc"%string) (Text.lit "123456"%string)) s
     = Return (true, Registered) /\
   User.password <$>
     read_file (users_file
       (after (register_user (Text.lit "abc"%string) (Text.lit "123456"%string)) s))
       !! Text.lit "abc"%string
     = Some (Text.lit "8d969eef6ecad3c29a3a629280e686cf0c3f5d5a86aff3ca12020c923adc6c92"%string)).
Proof.
  split; [reflexivity | split; [reflexivity | split; [reflexivity |]]].
  intros users Hload Hfree Hw.
  destruct (load_returns_readable s users Hload) as (Hl & <-).
  assert (Hreg :
            register_user (Text.lit "abc"%string) (Text.lit "123456"%string) s
            = (Return (true, Registered),
               set_users_file
                 (Stored
                    (<[Text.lit "abc"%string :=
                         User.Record
                           (Text.lit "8d969eef6ecad3c29a3a629280e686cf0c3f5d5a86aff3ca12020c923adc6c92"%string)
                           (clock s)]> (read_file (users_file s)))) s)).
  { apply register_saved; try assumption; try (vm_compute; reflexivity); simpl; lia. }
  unfold value, after. rewrite Hreg. split; [reflexivity |].
  simpl. rewrite lookup_insert_eq. reflexivity.
Qed.

Lemma register_validation_boundaries_witness :
  is_validation_error EmptyCredentials = true /\
  value (register_user (Text.lit "abc"%string) (Text.lit "123456"%string))
        Demo.fresh_empty_file
    = Return (true, Registered).
Proof.
  split; [reflexivity |].
  destruct (register_validation_boundaries Demo.fresh_empty_file) as (_ & _ & _ & H).
  destruct (H ∅) as (H' & _); [reflexivity | reflexivity | reflexivity | exact H'].
Defined.

(** C3, the input that refutes it: a user name of thirty-one characters is
    registered. *)
Lemma long_username_is_registered :
  length Demo.long_name = 31%nat /\
  value (register_user Demo.long_name (Text.lit "123456"%string)) Demo.fresh
    = Return (true, Registered).
Proof. split; [reflexivity | vm_compute; reflexivity]. Qed.

(** C3 as the code has it: [register_user] bounds the user name from below
    only.  Validation fails exactly for a user name shorter than three or a
    password shorter than six characters; a longer user name, of thirty-one
    characters or more as well, is registered when the password can be
    hashed, the mapping the load returns does not contain the name and the
    write succeeds. *)
Theorem register_bounds_username_below_only (s : state) (u p : str) :
  ((exists m, value (register_user u p) s = Return (false, m) /\
              is_validation_error m = true)
   <-> (length u < 3)%nat \/ (length p < 6)%nat) /\
  (forall d users,
      (30 < length u)%nat ->
      (6 <= length p)%nat ->
      _hash_password p = Return d ->
      value _load_users s = Return users ->
      users !! u = None ->
      write_fault s (<[u := User.Record d (clock s)]> users) = None ->
      value (register_user u p) s = Return (true, Registered)).
Proof.
  split.
  - split.
    + intros (m & Hv & Hm).
      destruct (le_lt_dec 3 (length u)) as [Hu | Hu]; [| left; exact Hu].
      destruct (le_lt_dec 6 (length p)) as [Hp | Hp]; [| right; exact Hp].
      exfalso. unfold value in Hv. rewrite register_validated in Hv by assumption.
      destruct (load_error (users_file s)); [discriminate |].
      destruct (read_file (users_file s) !! u).
      { injection Hv as <-. discriminate. }
      destruct (_hash_password p); [| discriminate].
      simpl in Hv. destruct (write_fault s _); simpl in Hv;
        [injection Hv as <-; discriminate Hm | discriminate Hv].
    + intros H. destruct (register_rejected s u p H) as (m & Hm & Hr).
      exists m. unfold value. rewrite Hr. split; [reflexivity | exact Hm].
  - intros d users Hu Hp Hh Hload Hfree Hw.
    destruct (load_returns_readable s users Hload) as (Hl & <-). unfold value.
    rewrite (register_saved s u p d); try assumption; [reflexivity | lia].
Qed.

Lemma register_bounds_username_below_only_witness :
  value (register_user Demo.long_name (Text.lit "123456"%string)) Demo.fresh
    = Return (true, Registered).
Proof.
  destruct (register_bounds_username_below_only Demo.fresh Demo.long_name
              (Text.lit "123456"%string)) as (_ & H).
  apply (H (Text.lit "8d969eef6ecad3c29a3a629280e686cf0c3f5d5a86aff3ca12020c923adc6c92"%string) ∅);
    [simpl; lia | simpl; lia | vm_compute; reflexivity | reflexivity
    | reflexivity | reflexivity].
Defined.

(* ===================================================================== *)
(** ** The backing file *)
(* ===================================================================== *)

(** C8, the input that refutes it: the bytes of the file are not UTF-8, so
    not JSON, and [_load_users] raises instead of returning the empty
    mapping; so do the operations that read the store. *)
Lemma load_raises_on_undecodable_file :
  users_file Faults.undecodable = Undecodable /\
  value _load_users Faults.undecodable = Raise UnicodeDecodeError /\
  value (user_exists Demo.alice) Faults.undecodable = Raise UnicodeDecodeError /\
  value get_user_count Faults.undecodable = Raise UnicodeDecodeError /\
  value (login Demo.alice Demo.secret1) Faults.undecodable = Raise UnicodeDecodeError /\
  value (register_user Demo.alice Demo.secret1) Faults.undecodable
    = Raise UnicodeDecodeError.
Proof. repeat split. Qed.

(** C8 as the code has it.  With no backing file, or one whose text the
    JSON parser rejects with [JSONDecodeError], [_load_users] returns the
    empty mapping and does not raise; the reading operations then answer as
    over a store without users: nobody exists, the count is zero, an
    unblocked login is "not found", registration never reports a duplicate,
    and [login] and [register_user] return what they return over a file
    holding the empty object.  With a file that cannot be decoded as UTF-8
    or cannot be opened, [_load_users] raises ([UnicodeDecodeError],
    [OSError]), and so do [user_exists], [get_user_count], the [login] of an
    unblocked name and a [register_user] that passed validation, each
    leaving the state as it was. *)
Theorem load_users_by_kind_of_file (s : state) :
  (users_file s = Absent \/ users_file s = Malformed ->
   _load_users s = (Return ∅, s) /\
   (forall u, value (user_exists u) s = Return false) /\
   value get_user_count s = Return 0%nat /\
   (forall u p,
       value (_is_user_blocked u) s = Return false ->
       value (login u p) s = Return (false, UserNotFound)) /\
   (forall u p, value (register_user u p) s <> Return (false, UserAlreadyExists)) /\
   (forall u p,
       value (login u p) s = value (login u p) (set_users_file (Stored ∅) s) /\
       value (register_user u p) s
         = value (register_user u p) (set_users_file (Stored ∅) s))) /\
  (forall e,
   users_file s = Undecodable /\ e = UnicodeDecodeError \/
   users_file s = Unopenable /\ e = OSError ->
   _load_users s = (Raise e, s) /\
   (forall u, user_exists u s = (Raise e, s)) /\
   get_user_count s = (Raise e, s) /\
   (forall u p,
       value (_is_user_blocked u) s = Return false ->
       login u p s = (Raise e, s)) /\
   (forall u p,
       (3 <= length u)%nat -> (6 <= length p)%nat ->
       register_user u p s = (Raise e, s))).
Proof.
  split.
  - intros Hfile.
    assert (Hl : load_error (users_file s) = None)
      by (destruct Hfile as [-> | ->]; reflexivity).
    assert (Hread : read_file (users_file s) = ∅)
      by (destruct Hfile as [-> | ->]; reflexivity).
    split; [rewrite _load_users_eq, Hl, Hread; reflexivity |].
    split.
    { intros u. unfold value. rewrite user_exists_eq, Hl, Hread, lookup_empty.
      rewrite bool_decide_eq_false_2; [reflexivity |].
      intros [x Hx]. discriminate. }
    split; [unfold value; rewrite get_user_count_eq, Hl, Hread; reflexivity |].
    split.
    { intros u p Hb. apply not_blocked_iff in Hb. unfold value.
      rewrite login_not_found; [reflexivity | exact Hb | exact Hl |].
      rewrite Hread. apply lookup_empty. }
    split.
    { intros u p. unfold value.
      destruct (le_lt_dec 3 (length u)) as [Hu | Hu];
        [destruct (le_lt_dec 6 (length p)) as [Hp | Hp] |].
      + rewrite register_validated by assumption. rewrite Hl, Hread, lookup_empty.
        destruct (_hash_password p); [| discriminate].
        simpl. destruct (write_fault s _); discriminate.
      + destruct (register_rejected s u p) as (m & Hm & ->); [right; exact Hp |].
        simpl. intros [= Heq]. rewrite Heq in Hm. discriminate.
      + destruct (register_rejected s u p) as (m & Hm & ->); [left; exact Hu |].
        simpl. intros [= Heq]. rewrite Heq in Hm. discriminate. }
    intros u p. split.
    + apply login_value_frame; try reflexivity; simpl; [exact Hl |].
      rewrite Hread. reflexivity.
    + apply register_value_frame; try reflexivity; simpl; [exact Hl | exact Hread].
  - intros e Hfile.
    assert (Hl : load_error (users_file s) = Some e)
      by (destruct Hfile as [(-> & ->) | (-> & ->)]; reflexivity).
    split; [rewrite _load_users_eq, Hl; reflexivity |].
    split; [intros u; rewrite user_exists_eq, Hl; reflexivity |].
    split; [rewrite get_user_count_eq, Hl; reflexivity |].
    split.
    + intros u p Hb. apply not_blocked_iff in Hb.
      apply login_load_fails; assumption.
    + intros u p Hu Hp. apply register_load_fails; assumption.
Qed.

Lemma load_users_by_kind_of_file_witness :
  value (login Demo.alice Demo.secret1) Demo.fresh_empty_file
    = Return (false, UserNotFound) /\
  value get_user_count Demo.fresh = Return 0%nat /\
  get_user_count Faults.undecodable = (Raise UnicodeDecodeError, Faults.undecodable).
Proof.
  split; [| split].
  - destruct (load_users_by_kind_of_file Demo.fresh_empty_file) as (H & _).
    destruct H as (_ & _ & _ & H & _); [right; reflexivity |].
    apply H. reflexivity.
  - destruct (load_users_by_kind_of_file Demo.fresh) as (H & _).
    destruct H as (_ & _ & H & _); [left; reflexivity | exact H].
  - destruct (load_users_by_kind_of_file Faults.undecodable) as (_ & H).
    destruct (H UnicodeDecodeError) as (_ & _ & H' & _);
      [left; split; reflexivity | exact H'].
Defined.




(* ===================================================================== *)
(** ** Registration and the lockout state *)
(* ===================================================================== *)

(** C10. [register_user] leaves every failure count as it found it and its
    outcome does not depend on them.  So a name that was blocked by lookups
    that found nothing can still be registered, and the first login with the
    right password afterwards is refused as blocked. *)
Theorem register_ignores_lockout (s : state) (u p : str) :
  failed_attempts (after (register_user u p) s) = failed_attempts s /\
  (forall fa,
      value (register_user u p) (set_failed_attempts fa s)
        = value (register_user u p) s /\
      users_file (after (register_user u p) (set_failed_attempts fa s))
        = users_file (after (register_user u p) s)) /\
  (forall passwords d users,
      (3 <= length u)%nat ->
      (6 <= length p)%nat ->
      _hash_password p = Return d ->
      value _load_users s = Return users ->
      users !! u = None ->
      failed_attempts s !! u = None ->
      write_fault s (<[u := User.Record d (clock s)]> users) = None ->
      Z.of_nat (length passwords) = max_attempts s ->
      let s1 := snd (logins u passwords s) in
      let s2 := after (register_user u p) s1 in
      fst (logins u passwords s)
        = repeat (Return (false, UserNotFound)) (length passwords) /\
      value (register_user u p) s1 = Return (true, Registered) /\
      value (login u p) s2 = Return (false, UserBlocked (max_attempts s))).
Proof.
  assert (Hcases : forall t : state,
             failed_attempts (after (register_user u p) t) = failed_attempts t).
  { intros t. unfold after.
    destruct (le_lt_dec 3 (length u)) as [Hu | Hu];
      [destruct (le_lt_dec 6 (length p)) as [Hp | Hp] |].
    - rewrite register_validated by assumption.
      destruct (load_error (users_file t)); [reflexivity |].
      destruct (read_file (users_file t) !! u); [reflexivity |].
      destruct (_hash_password p); [| reflexivity].
      simpl. destruct (write_fault t _); reflexivity.
    - destruct (register_rejected t u p) as (m & _ & ->); [right; exact Hp |]. reflexivity.
    - destruct (register_rejected t u p) as (m & _ & ->); [left; exact Hu |]. reflexivity. }
  split; [apply Hcases | split].
  - intros fa. split; [apply register_value_frame; reflexivity |].
    unfold after.
    destruct (le_lt_dec 3 (length u)) as [Hu | Hu];
      [destruct (le_lt_dec 6 (length p)) as [Hp | Hp] |].
    + rewrite !register_validated by assumption. simpl.
      destruct (load_error (users_file s)); [reflexivity |].
      destruct (read_file (users_file s) !! u); [reflexivity |].
      destruct (_hash_password p); [| reflexivity].
      simpl. destruct (write_fault s _); reflexivity.
    + destruct (register_rejected s u p) as (m & _ & ->); [right; exact Hp |].
      destruct (register_rejected (set_failed_attempts fa s) u p) as (m' & _ & ->);
        [right; exact Hp |]. reflexivity.
    + destruct (register_rejected s u p) as (m & _ & ->); [left; exact Hu |].
      destruct (register_rejected (set_failed_attempts fa s) u p) as (m' & _ & ->);
        [left; exact Hu |]. reflexivity.
  - intros passwords d users Hu Hp Hh Hload Hfree Hnone Hw Hlen s1 s2.
    destruct (load_returns_readable s users Hload) as (Hle & <-).
    destruct (logins_not_found u passwords s Hle Hfree) as (Hout & Hf & Hm & Hw1 & Hc & Ha & _).
    { rewrite (attempts_None s u Hnone). lia. }
    fold s1 in Hf, Hm, Hw1, Hc, Ha.
    assert (Hreg : register_user u p s1 =
                   (Return (true, Registered),
                    set_users_file
                      (Stored (<[u := User.Record d (clock s1)]>
                                 (read_file (users_file s1)))) s1)).
    { apply register_saved; try assumption.
      - rewrite Hf. exact Hle.
      - rewrite Hf. exact Hfree.
      - rewrite Hw1, Hc, Hf. exact Hw. }
    split; [exact Hout |]. split; [unfold value; rewrite Hreg; reflexivity |].
    subst s2. unfold after, value. rewrite Hreg. simpl snd.
    rewrite login_blocked.
    + simpl. rewrite Hm. reflexivity.
    + unfold attempts in *. simpl. rewrite Hm, Ha, Hnone. simpl. lia.
Qed.

Lemma register_ignores_lockout_witness :
  value (register_user Demo.ghost Demo.secret1)
        (snd (logins Demo.ghost [Demo.wrong; Demo.wrong; Demo.wrong] Demo.fresh))
    = Return (true, Registered) /\
  value (login Demo.ghost Demo.secret1)
        (after (register_user Demo.ghost Demo.secret1)
               (snd (logins Demo.ghost [Demo.wrong; Demo.wrong; Demo.wrong] Demo.fresh)))
    = Return (false, UserBlocked 3).
Proof.
  destruct (register_ignores_lockout Demo.fresh Demo.ghost Demo.secret1) as (_ & _ & H).
  destruct (H [Demo.wrong; Demo.wrong; Demo.wrong]
              (Text.lit "5b11618c2e44027877d0cd0921ed166b9f176f50587fc91e7534dd2946db77d6"%string)
              ∅)
    as (_ & H1 & H2);
    [simpl; lia | simpl; lia | vm_compute; reflexivity | reflexivity | reflexivity
    | reflexivity | reflexivity | reflexivity |].
  split; [exact H1 | exact H2].
Defined.

(* ===================================================================== *)
(** ** The digest *)
(* ===================================================================== *)

(** The part of C4 that can be settled: the digest is a function of the
    password alone, it is sixty-four lowercase hexadecimal characters long,
    and it differs from every password that is not itself such a string.
    Whether some string of sixty-four lowercase hexadecimal characters is
    its own digest is a question about SHA-256 that is left open here. *)

Lemma nibble_range (x : Z) : 0 <= Z.land x 0xF < 16.
Proof.
  change 0xF with (Z.ones 4). rewrite Z.land_ones by lia.
  apply Z.mod_pos_bound. reflexivity.
Qed.

Lemma hex_digit_lower (d : Z) :
  0 <= d < 16 -> Text.is_lower_hex (SHA256.hex_digit d) = true.
Proof.
  intros H. unfold SHA256.hex_digit, Text.is_lower_hex.
  apply orb_true_iff.
  destruct (Z.ltb_spec d 10); [left | right];
    apply andb_true_iff; split; apply N.leb_le; lia.
Qed.

Lemma hex_word_lower (w : Z) :
  length (SHA256.hex_word w) = 8%nat /\
  forallb Text.is_lower_hex (SHA256.hex_word w) = true.
Proof.
  split; [reflexivity |].
  unfold SHA256.hex_word. apply forallb_forall. intros c Hc.
  apply in_map_iff in Hc. destruct Hc as (i & <- & _).
  apply hex_digit_lower, nibble_range.
Qed.

Lemma hexdigest_format (msg : bytes) :
  length (SHA256.hexdigest msg) = 64%nat /\
  forallb Text.is_lower_hex (SHA256.hexdigest msg) = true.
Proof.
  unfold SHA256.hexdigest, SHA256.hex_regs. split.
  - rewrite !length_app. rewrite !(proj1 (hex_word_lower _)). reflexivity.
  - rewrite !forallb_app. rewrite !(proj2 (hex_word_lower _)). reflexivity.
Qed.

Lemma _hash_password_deterministic (p q : str) :
  p = q -> _hash_password p = _hash_password q.
Proof. intros ->. reflexivity. Qed.

Lemma _hash_password_format (p d : str) :
  _hash_password p = Return d ->
  length d = 64%nat /\ forallb Text.is_lower_hex d = true.
Proof.
  unfold _hash_password. destruct (Text.encode p); [| discriminate].
  intros [= <-]. apply hexdigest_format.
Qed.

Lemma _hash_password_differs (p : str) :
  length p <> 64%nat \/ forallb Text.is_lower_hex p = false ->
  _hash_password p <> Return p.
Proof.
  intros H Hp. apply _hash_password_format in Hp. destruct Hp as (Hl & Hx).
  destruct H as [H | H]; congruence.
Qed.

Lemma _hash_password_differs_witness :
  _hash_password Demo.secret1 <> Return Demo.secret1.
Proof. apply _hash_password_differs. left. simpl. lia. Defined.

(* ===================================================================== *)
(** ** Further properties of registration *)
(* ===================================================================== *)

(** X1. Once a name is registered, registering it again fails, whatever the
    password: as a duplicate when the new password is long enough (even one
    that cannot be hashed), as a validation error otherwise; the state is
    left as it was. *)
Theorem register_twice_fails (s : state) (u p p' : str) :
  value (register_user u p) s = Return (true, Registered) ->
  let s1 := after (register_user u p) s in
  register_user u p' s1
    = (Return (false, if (length p' <? 6)%nat
                      then (if falsy p' then EmptyCredentials else PasswordTooShort)
                      else UserAlreadyExists), s1).
Proof.
  intros Hreg s1.
  destruct (register_success_inv s u p Hreg) as (d & Hd & Hfree & Hs1).
  fold s1 in Hs1.
  assert (Hlen : (3 <= length u)%nat).
  { destruct (le_lt_dec 3 (length u)) as [H | H]; [exact H |].
    unfold value in Hreg.
    destruct (register_rejected s u p) as (m & _ & Hr); [left; exact H |].
    rewrite Hr in Hreg. discriminate. }
  destruct (Nat.ltb_spec (length p') 6) as [Hp | Hp].
  - unfold register_user.
    assert (falsy u = false) as -> by (apply falsy_length; lia).
    destruct p' as [| c rest]; [reflexivity |]. simpl falsy. simpl orb. cbv iota.
    destruct (Nat.ltb_spec (length u) 3); [lia |].
    destruct (Nat.ltb_spec (length (c :: rest)) 6); [reflexivity | lia].
  - rewrite register_validated by assumption.
    rewrite Hs1. simpl. rewrite lookup_insert_eq. reflexivity.
Qed.

Lemma register_twice_fails_witness :
  register_user Demo.alice Demo.secret1 Demo.alice_registered
    = (Return (false, UserAlreadyExists), Demo.alice_registered).
Proof.
  apply (register_twice_fails Demo.fresh Demo.alice Demo.secret1 Demo.secret1).
  vm_compute. reflexivity.
Defined.

(** X2. After a successful registration a fresh load of the file holds the
    new name with the digest of its password and the time stamp of the call,
    every other entry is as before, [user_exists] answers true and the user
    count has grown by exactly one. *)
Theorem register_round_trip (s : state) (u p : str) :
  value (register_user u p) s = Return (true, Registered) ->
  let s1 := after (register_user u p) s in
  (exists d,
      _hash_password p = Return d /\
      value _load_users s1
        = Return (<[u := User.Record d (clock s)]> (read_file (users_file s)))) /\
  (forall v, v <> u ->
      read_file (users_file s1) !! v = read_file (users_file s) !! v) /\
  value (user_exists u) s1 = Return true /\
  (exists n, value get_user_count s = Return n /\
             value get_user_count s1 = Return (S n)).
Proof.
  intros Hreg s1.
  destruct (register_success_inv s u p Hreg) as (d & Hd & Hfree & Hs1).
  pose proof (register_success_readable s u p Hreg) as Hle.
  fold s1 in Hs1. rewrite Hs1. repeat split.
  - exists d. split; [exact Hd | reflexivity].
  - intros v Hv. simpl. apply lookup_insert_ne. congruence.
  - unfold value. rewrite user_exists_eq. simpl. rewrite lookup_insert_eq.
    rewrite bool_decide_eq_true_2 by eauto. reflexivity.
  - exists (size (read_file (users_file s))). unfold value.
    rewrite !get_user_count_eq, Hle. split; [reflexivity |].
    simpl. rewrite map_size_insert_None by exact Hfree. reflexivity.
Qed.

Lemma register_round_trip_witness :
  value (user_exists Demo.alice) Demo.alice_registered = Return true /\
  value get_user_count Demo.alice_registered = Return 1%nat.
Proof.
  destruct (register_round_trip Demo.fresh Demo.alice Demo.secret1)
    as (_ & _ & He & (n & Hn & Hc)); [vm_compute; reflexivity |].
  split; [exact He |].
  assert (n = 0%nat) as -> by (vm_compute in Hn; congruence).
  exact Hc.
Defined.

(** X3. A user who has just been registered and is not blocked logs in with
    the registered password, and the login leaves no failure count for that
    user. *)
Theorem register_then_login (s : state) (u p : str) :
  value (register_user u p) s = Return (true, Registered) ->
  value (_is_user_blocked u) s = Return false ->
  let s1 := after (register_user u p) s in
  value (login u p) s1 = Return (true, LoginOk) /\
  failed_attempts (after (login u p) s1) !! u = None.
Proof.
  intros Hreg Hb s1. apply not_blocked_iff in Hb.
  destruct (register_success_inv s u p Hreg) as (d & Hd & Hfree & Hs1).
  fold s1 in Hs1.
  unfold value, after.
  rewrite (login_ok s1 u p (User.Record d (clock s))).
  - simpl. split; [reflexivity | apply lookup_delete_eq].
  - rewrite Hs1. exact Hb.
  - rewrite Hs1. simpl. apply lookup_insert_eq.
  - exact Hd.
Qed.

Lemma register_then_login_witness :
  value (login Demo.alice Demo.secret1) Demo.alice_registered
    = Return (true, LoginOk).
Proof.
  apply (register_then_login Demo.fresh Demo.alice Demo.secret1);
    [vm_compute; reflexivity | reflexivity].
Defined.

(* ===================================================================== *)
(** ** Further properties of the lockout *)
(* ===================================================================== *)

(** X4. Failures count only while consecutive: a successful login of an
    unblocked user deletes that user's failure count, whatever it was, so
    the next wrong password is counted as the first one again. *)
Theorem success_resets_count (s : state) (u p p' : str) (entry : User.record) :
  0 < max_attempts s ->
  value (_is_user_blocked u) s = Return false ->
  read_file (users_file s) !! u = Some entry ->
  _hash_password p = Return (User.password entry) ->
  digest_differs (User.password entry) p' = true ->
  let s1 := after (login u p) s in
  value (login u p) s = Return (true, LoginOk) /\
  failed_attempts s1 = delete u (failed_attempts s) /\
  value (login u p') s1
    = Return (false, Trace.failure_message (max_attempts s) 1) /\
  attempts u (after (login u p') s1) = 1.
Proof.
  intros Hpos Hb Hu Hh Hd s1. apply not_blocked_iff in Hb.
  assert (Hs1 : s1 = set_failed_attempts (delete u (failed_attempts s)) s).
  { subst s1. unfold after. rewrite (login_ok s u p entry) by assumption. reflexivity. }
  split; [unfold value; rewrite (login_ok s u p entry) by assumption; reflexivity |].
  split; [rewrite Hs1; reflexivity |].
  assert (Ha : attempts u s1 = 0).
  { apply attempts_None. rewrite Hs1. simpl. apply lookup_delete_eq. }
  destruct (login_mismatch_after s1 u p' entry) as (_ & _ & Ha' & Hv).
  - rewrite Ha, Hs1. exact Hpos.
  - rewrite Hs1. exact Hu.
  - exact Hd.
  - rewrite Ha in Ha'. simpl in Ha'. rewrite Hv, Ha'.
    split; [| reflexivity]. rewrite Hs1. reflexivity.
Qed.

Lemma success_resets_count_witness :
  let s := after (login Demo.alice Demo.wrong) Demo.alice_registered in
  attempts Demo.alice s = 1 /\
  value (login Demo.alice Demo.wrong) (after (login Demo.alice Demo.secret1) s)
    = Return (false, WrongPassword 2).
Proof.
  intros s. split; [vm_compute; reflexivity |].
  destruct (success_resets_count s Demo.alice Demo.secret1 Demo.wrong
              (User.Record
                 (Text.lit "5b11618c2e44027877d0cd0921ed166b9f176f50587fc91e7534dd2946db77d6"%string)
                 (clock Demo.fresh)))
    as (_ & _ & H & _);
    [reflexivity | vm_compute; reflexivity | vm_compute; reflexivity
    | vm_compute; reflexivity | vm_compute; reflexivity | exact H].
Defined.

(** X5. The lockout is per user name: a [login] or an [unblock_user] for one
    name changes no other name's failure count, nor the threshold, so it can
    neither block nor unblock anybody else. *)
Theorem lockout_is_per_user (s : state) (u v p : str) :
  u <> v ->
  let s1 := after (login u p) s in
  let s2 := after (unblock_user u) s in
  failed_attempts s1 !! v = failed_attempts s !! v /\
  max_attempts s1 = max_attempts s /\
  value (_is_user_blocked v) s1 = value (_is_user_blocked v) s /\
  failed_attempts s2 !! v = failed_attempts s !! v /\
  max_attempts s2 = max_attempts s /\
  value (_is_user_blocked v) s2 = value (_is_user_blocked v) s.
Proof.
  intros Hne s1 s2.
  assert (H1 : failed_attempts s1 !! v = failed_attempts s !! v /\
               max_attempts s1 = max_attempts s).
  { subst s1. unfold after. rewrite login_eq.
    destruct (max_attempts s <=? attempts u s); [split; reflexivity |].
    destruct (load_error (users_file s)); [split; reflexivity |].
    destruct (read_file (users_file s) !! u) as [entry |].
    - destruct (_hash_password p) as [d | e]; [| split; reflexivity].
      destruct (bool_decide (User.password entry = d)); simpl; split; try reflexivity.
      + apply lookup_delete_ne. exact Hne.
      + apply lookup_insert_ne. exact Hne.
    - simpl. split; [apply lookup_insert_ne; exact Hne | reflexivity]. }
  assert (H2 : failed_attempts s2 !! v = failed_attempts s !! v /\
               max_attempts s2 = max_attempts s).
  { subst s2. run. destruct (failed_attempts s !! u); simpl; split; try reflexivity.
    apply lookup_delete_ne. exact Hne. }
  destruct H1 as (H1 & H1'), H2 as (H2 & H2').
  repeat split; try assumption.
  - unfold value, _is_user_blocked, bind, get, ret, attempts. simpl.
    rewrite H1, H1'. reflexivity.
  - unfold value, _is_user_blocked, bind, get, ret, attempts. simpl.
    rewrite H2, H2'. reflexivity.
Qed.

Lemma lockout_is_per_user_witness :
  value (_is_user_blocked Demo.ghost) Demo.alice_blocked = Return false.
Proof.
  destruct (lockout_is_per_user
              (after (login Demo.alice Demo.wrong)
                     (after (login Demo.alice Demo.wrong) Demo.alice_registered))
              Demo.alice Demo.ghost Demo.wrong) as (_ & _ & H & _).
  - vm_compute. discriminate.
  - etransitivity; [exact H | reflexivity].
Defined.

(** X6. No password gets a blocked user out: while a name is blocked every
    [login] for it, with any password, answers "blocked" and leaves the
    state untouched, however many times it is tried. *)
Theorem blocked_is_absorbing (s : state) (u : str) (passwords : list str) :
  value (_is_user_blocked u) s = Return true ->
  logins u passwords s
    = (repeat (Return (false, UserBlocked (max_attempts s))) (length passwords), s).
Proof.
  intros Hb. apply blocked_iff in Hb.
  induction passwords as [| p rest IH]; [reflexivity |].
  simpl. unfold after, value. rewrite login_blocked by exact Hb. simpl.
  rewrite IH. reflexivity.
Qed.

Lemma blocked_is_absorbing_witness :
  logins Demo.alice [Demo.secret1; Demo.wrong] Demo.alice_blocked
    = ([Return (false, UserBlocked 3); Return (false, UserBlocked 3)],
       Demo.alice_blocked).
Proof.
  apply (blocked_is_absorbing Demo.alice_blocked Demo.alice [Demo.secret1; Demo.wrong]).
  reflexivity.
Defined.

(** Wrong passwords in a row on an existing account, below the threshold. *)
Lemma logins_mismatch (u : str) (entry : User.record) (passwords : list str) :
  forall s : state,
    read_file (users_file s) !! u = Some entry ->
    Forall (fun p => digest_differs (User.password entry) p = true) passwords ->
    attempts u s + Z.of_nat (length passwords) <= max_attempts s ->
    let s' := snd (logins u passwords s) in
    fst (logins u passwords s)
      = map (fun i => Return (false,
                              Trace.failure_message (max_attempts s)
                                (attempts u s + Z.of_nat i)))
            (seq 1 (length passwords)) /\
    users_file s' = users_file s /\
    max_attempts s' = max_attempts s /\
    attempts u s' = attempts u s + Z.of_nat (length passwords).
Proof.
  induction passwords as [| p rest IH]; intros s Hu Hall Hle; simpl.
  - repeat split. lia.
  - simpl length in Hle. inversion Hall as [| ? ? Hp Hrest]; subst.
    destruct (login_mismatch_after s u p entry) as (Hf & Hm & Ha & Hv);
      [lia | exact Hu | exact Hp |].
    set (s1 := after (login u p) s) in *.
    specialize (IH s1). destruct IH as (Hout & Hf' & Hm' & Ha').
    { rewrite Hf. exact Hu. }
    { exact Hrest. }
    { rewrite Ha, Hm. lia. }
    destruct (logins u rest s1) as [outcomes s']. simpl in *.
    rewrite Hv, Hout, Ha, Hm. repeat split.
    + f_equal. rewrite <- (seq_shift (length rest) 1), map_map. apply map_ext.
      intros i. do 3 f_equal. lia.
    + congruence.
    + congruence.
    + rewrite Ha'. lia.
Qed.

(** X7. The countdown for any threshold and any number of earlier failures:
    wrong passwords on an existing, unblocked account are answered with the
    attempts remaining, one less each time, and the one that brings the
    count to the threshold is answered "blocked" and blocks the account. *)
Theorem wrong_passwords_count_down
    (s : state) (u : str) (entry : User.record) (passwords : list str) :
  read_file (users_file s) !! u = Some entry ->
  Forall (fun p => digest_differs (User.password entry) p = true) passwords ->
  attempts u s + Z.of_nat (length passwords) = max_attempts s ->
  let s' := snd (logins u passwords s) in
  (forall i,
      (i < length passwords)%nat ->
      fst (logins u passwords s) !! i
        = Some (Return (false,
                        if (S i =? length passwords)%nat
                        then UserBlocked (max_attempts s)
                        else WrongPassword
                               (Z.of_nat (length passwords) - Z.of_nat (S i))))) /\
  value (_is_user_blocked u) s' = Return true.
Proof.
  intros Hu Hall Hlen s'.
  destruct (logins_mismatch u entry passwords s Hu Hall) as (Hout & _ & Hm & Ha);
    [lia |].
  fold s' in Hm, Ha. split.
  - intros i Hi. rewrite Hout. rewrite list_lookup_fmap.
    rewrite lookup_seq_lt by exact Hi.
    destruct (Nat.eqb_spec (S i) (length passwords)) as [E | E];
      simpl; do 3 f_equal; unfold Trace.failure_message;
      destruct (Z.leb_spec (max_attempts s) (attempts u s + Z.of_nat (S i)));
      try reflexivity; try lia.
    f_equal. lia.
  - apply blocked_iff. lia.
Qed.

Lemma wrong_passwords_count_down_witness :
  fst (logins Demo.alice [Demo.wrong; Demo.wrong; Demo.wrong] Demo.alice_registered) !! 1%nat
    = Some (Return (false, WrongPassword 1)) /\
  value (_is_user_blocked Demo.alice) Demo.alice_blocked = Return true.
Proof.
  destruct (wrong_passwords_count_down Demo.alice_registered Demo.alice
              (User.Record
                 (Text.lit "5b11618c2e44027877d0cd0921ed166b9f176f50587fc91e7534dd2946db77d6"%string)
                 (clock Demo.fresh))
              [Demo.wrong; Demo.wrong; Demo.wrong]) as (H1 & H2).
  - vm_compute. reflexivity.
  - repeat constructor; vm_compute; reflexivity.
  - reflexivity.
  - split; [apply (H1 1%nat); simpl; lia | exact H2].
Defined.

(** X8. [user_exists] answers for the two other methods: for credentials
    that pass validation it is true exactly when [register_user] reports a
    duplicate, and for an unblocked name it is false exactly when [login]
    reports "not found"; it changes nothing itself. *)
Theorem user_exists_agrees (s : state) (u p : str) :
  after (user_exists u) s = s /\
  ((3 <= length u)%nat -> (6 <= length p)%nat ->
   (value (user_exists u) s = Return true <->
    value (register_user u p) s = Return (false, UserAlreadyExists))) /\
  (value (_is_user_blocked u) s = Return false ->
   (value (user_exists u) s = Return false <->
    value (login u p) s = Return (false, UserNotFound))).
Proof.
  split; [| split].
  - unfold after. rewrite user_exists_eq.
    destruct (load_error (users_file s)); reflexivity.
  - intros Hu Hp. unfold value. rewrite register_validated by assumption.
    rewrite user_exists_eq.
    destruct (load_error (users_file s)); [split; discriminate |].
    destruct (read_file (users_file s) !! u) as [entry |].
    + rewrite bool_decide_eq_true_2 by eauto. split; reflexivity.
    + rewrite bool_decide_eq_false_2 by (intros [x Hx]; discriminate).
      destruct (_hash_password p); simpl; [| split; discriminate].
      destruct (write_fault s _); simpl; split; discriminate.
  - intros Hb. apply not_blocked_iff in Hb. unfold value.
    rewrite login_eq, user_exists_eq.
    destruct (Z.leb_spec (max_attempts s) (attempts u s)); [lia |].
    destruct (load_error (users_file s)); [split; discriminate |].
    destruct (read_file (users_file s) !! u) as [entry |].
    + rewrite bool_decide_eq_true_2 by eauto.
      split; [discriminate |].
      destruct (_hash_password p) as [d | e]; [| discriminate].
      destruct (bool_decide (User.password entry = d)); [discriminate |].
      simpl. destruct (_ <=? 0); discriminate.
    + rewrite bool_decide_eq_false_2 by (intros [x Hx]; discriminate).
      split; reflexivity.
Qed.

Lemma user_exists_agrees_witness :
  value (user_exists Demo.ghost) Demo.alice_registered = Return false /\
  value (user_exists Demo.alice) Demo.alice_registered = Return true.
Proof.
  split.
  - destruct (user_exists_agrees Demo.alice_registered Demo.ghost Demo.secret1)
      as (_ & _ & H).
    apply H; [reflexivity | vm_compute; reflexivity].
  - destruct (user_exists_agrees Demo.alice_registered Demo.alice Demo.secret1)
      as (_ & H & _).
    apply H; [simpl; lia | simpl; lia | vm_compute; reflexivity].
Defined.

(* ===================================================================== *)
(** ** Exceptions *)
(* ===================================================================== *)

Lemma encode_char_Some_iff (c : N) :
  is_Some (Text.encode_char c) <-> Trace.scalar_value c = true.
Proof.
  unfold Text.encode_char, Trace.scalar_value.
  rewrite orb_true_iff, andb_true_iff, !N.ltb_lt.
  destruct (Z.ltb_spec (Z.of_N c) 0x80); [split; [lia | eauto] |].
  destruct (Z.ltb_spec (Z.of_N c) 0x800); [split; [lia | eauto] |].
  destruct (Z.leb_spec 0xD800 (Z.of_N c)); destruct (Z.leb_spec (Z.of_N c) 0xDFFF);
    simpl andb; cbv iota.
  - split; [intros [x Hx]; discriminate | lia].
  - destruct (Z.ltb_spec (Z.of_N c) 0x10000); [split; [lia | eauto] |].
    destruct (Z.ltb_spec (Z.of_N c) 0x110000); [split; [lia | eauto] |].
    split; [intros [x Hx]; discriminate | lia].
  - destruct (Z.ltb_spec (Z.of_N c) 0x10000); [split; [lia | eauto] | lia].
  - lia.
Qed.

Lemma encode_Some_iff (p : str) :
  is_Some (Text.encode p) <-> forallb Trace.scalar_value p = true.
Proof.
  induction p as [| c rest IH]; simpl.
  - split; eauto.
  - rewrite andb_true_iff, <- IH, <- encode_char_Some_iff.
    destruct (Text.encode_char c), (Text.encode rest); split;
      try (intros [x Hx]; discriminate); try (intros ([x Hx] & [y Hy]); discriminate);
      eauto.
Qed.

Lemma _hash_password_raises_iff (p : str) :
  _hash_password p = Raise UnicodeEncodeError <->
  forallb Trace.scalar_value p = false.
Proof.
  rewrite <- not_true_iff_false, <- encode_Some_iff. unfold _hash_password.
  destruct (Text.encode p); split; try discriminate; try reflexivity.
  - intros H. contradiction H. eauto.
  - intros _ [x Hx]. discriminate.
Qed.

(** X9. When the two methods raise.  [login] lets [UnicodeEncodeError]
    escape exactly when the name is not blocked, is in the store and the
    password holds a code point UTF-8 cannot carry (a lone surrogate);
    [register_user] exactly when both lengths pass validation, the file is
    loaded, the name is not in it and the password holds such a code point.
    A call that raises it leaves the state as it was. *)
Theorem raises_only_on_unencodable_password (s : state) (u p : str) :
  (value (login u p) s = Raise UnicodeEncodeError <->
   value (_is_user_blocked u) s = Return false /\
   is_Some (read_file (users_file s) !! u) /\
   forallb Trace.scalar_value p = false) /\
  (value (register_user u p) s = Raise UnicodeEncodeError <->
   (3 <= length u)%nat /\ (6 <= length p)%nat /\
   (exists users, value _load_users s = Return users /\ users !! u = None) /\
   forallb Trace.scalar_value p = false) /\
  (value (login u p) s = Raise UnicodeEncodeError -> after (login u p) s = s) /\
  (value (register_user u p) s = Raise UnicodeEncodeError ->
   after (register_user u p) s = s).
Proof.
  assert (Hlogin : value (login u p) s = Raise UnicodeEncodeError <->
                   attempts u s < max_attempts s /\
                   is_Some (read_file (users_file s) !! u) /\
                   _hash_password p = Raise UnicodeEncodeError).
  { unfold value. rewrite login_eq.
    destruct (Z.leb_spec (max_attempts s) (attempts u s)) as [Hb | Hb].
    { split; [discriminate | lia]. }
    destruct (read_file (users_file s) !! u) as [entry |] eqn:E.
    - rewrite (read_file_Some_readable _ _ _ E).
      destruct (_hash_password p) as [d | e] eqn:Hh.
      + split; [| intros (_ & _ & H); discriminate].
        destruct (bool_decide (User.password entry = d)); [discriminate |].
        simpl. destruct (_ <=? 0); discriminate.
      + rewrite (_hash_password_Raise p e Hh).
        split; [intros _ | reflexivity]. repeat split; [lia | eauto].
    - destruct (load_error (users_file s)) as [e |] eqn:El.
      + split; [| intros (_ & [x Hx] & _); discriminate].
        destruct (users_file s); simpl in El; try discriminate;
          injection El as <-; discriminate.
      + split; [discriminate | intros (_ & [x Hx] & _); discriminate]. }
  assert (Hreg : value (register_user u p) s = Raise UnicodeEncodeError <->
                 (3 <= length u)%nat /\ (6 <= length p)%nat /\
                 (load_error (users_file s) = None /\
                  read_file (users_file s) !! u = None) /\
                 _hash_password p = Raise UnicodeEncodeError).
  { unfold value.
    destruct (le_lt_dec 3 (length u)) as [Hu | Hu];
      [destruct (le_lt_dec 6 (length p)) as [Hp | Hp] |].
    - rewrite register_validated by assumption.
      destruct (load_error (users_file s)) as [e |] eqn:El.
      { split; [| intros (_ & _ & (H & _) & _); discriminate].
        destruct (users_file s); simpl in El; try discriminate;
          injection El as <-; discriminate. }
      destruct (read_file (users_file s) !! u).
      { split; [discriminate | intros (_ & _ & (_ & H) & _); discriminate]. }
      destruct (_hash_password p) as [d | e] eqn:Hh.
      + simpl. destruct (write_fault s _);
          (split; [discriminate | intros (_ & _ & _ & H); discriminate]).
      + rewrite (_hash_password_Raise p e Hh).
        split; [intros _; repeat split; assumption | reflexivity].
    - destruct (register_rejected s u p) as (m & _ & ->); [right; exact Hp |].
      split; [discriminate | lia].
    - destruct (register_rejected s u p) as (m & _ & ->); [left; exact Hu |].
      split; [discriminate | lia]. }
  assert (Hload : (exists users, value _load_users s = Return users /\ users !! u = None) <->
                  load_error (users_file s) = None /\
                  read_file (users_file s) !! u = None).
  { split.
    - intros (users & Hl & Hfree).
      destruct (load_returns_readable s users Hl) as (Hle & <-). split; assumption.
    - intros (Hle & Hfree). exists (read_file (users_file s)).
      split; [| exact Hfree]. unfold value. rewrite _load_users_eq, Hle. reflexivity. }
  split; [| split; [| split]].
  - rewrite Hlogin, not_blocked_iff, _hash_password_raises_iff. reflexivity.
  - rewrite Hreg, Hload, _hash_password_raises_iff. reflexivity.
  - intros H. apply Hlogin in H. destruct H as (Hb & [entry He] & Hh).
    unfold after. rewrite (login_raises s u p entry) by assumption. reflexivity.
  - intros H. apply Hreg in H. destruct H as (Hu & Hp & (Hle & Hfree) & Hh).
    unfold after. rewrite register_validated by assumption.
    rewrite Hle, Hfree, Hh. reflexivity.
Qed.

Lemma raises_only_on_unencodable_password_witness :
  after (login Demo.alice [0xD800%N]) Demo.alice_registered = Demo.alice_registered.
Proof.
  destruct (raises_only_on_unencodable_password Demo.alice_registered Demo.alice
              [0xD800%N]) as (_ & _ & H & _).
  apply H. vm_compute. reflexivity.
Defined.

(* ===================================================================== *)
(** ** Invariants along any sequence of calls *)
(* ===================================================================== *)

Lemma login_after_cases (s : state) (u p : str) :
  after (login u p) s = s \/
  (attempts u s < max_attempts s /\
   after (login u p) s
   = set_failed_attempts (<[u := attempts u s + 1]> (failed_attempts s)) s) \/
  after (login u p) s = set_failed_attempts (delete u (failed_attempts s)) s.
Proof.
  unfold after. rewrite login_eq.
  destruct (Z.leb_spec (max_attempts s) (attempts u s)) as [Hb | Hb];
    [left; reflexivity |].
  destruct (load_error (users_file s)); [left; reflexivity |].
  destruct (read_file (users_file s) !! u) as [entry |].
  - destruct (_hash_password p) as [d | e]; [| left; reflexivity].
    destruct (bool_decide (User.password entry = d)).
    + right. right. reflexivity.
    + right. left. split; [exact Hb | reflexivity].
  - right. left. split; [exact Hb | reflexivity].
Qed.

Lemma register_after_cases (s : state) (u p : str) :
  after (register_user u p) s = s \/
  (exists d,
      _hash_password p = Return d /\
      read_file (users_file s) !! u = None /\
      after (register_user u p) s
      = set_users_file
          (Stored (<[u := User.Record d (clock s)]> (read_file (users_file s)))) s) \/
  (exists users remains,
      write_fault s users = Some remains /\
      after (register_user u p) s = set_users_file remains s).
Proof.
  unfold after.
  destruct (le_lt_dec 3 (length u)) as [Hu | Hu];
    [destruct (le_lt_dec 6 (length p)) as [Hp | Hp] |].
  - rewrite register_validated by assumption.
    destruct (load_error (users_file s)); [left; reflexivity |].
    destruct (read_file (users_file s) !! u) eqn:E; [left; reflexivity |].
    destruct (_hash_password p) as [d | e] eqn:Hh; [| left; reflexivity].
    simpl. destruct (write_fault s _) as [remains |] eqn:Hw.
    + right. right. eexists _, remains. split; [exact Hw | reflexivity].
    + right. left. exists d. repeat split.
  - left. destruct (register_rejected s u p) as (m & _ & ->); [right; exact Hp |]. reflexivity.
  - left. destruct (register_rejected s u p) as (m & _ & ->); [left; exact Hu |]. reflexivity.
Qed.

Lemma unblock_after (s : state) (u : str) :
  after (unblock_user u) s = set_failed_attempts (delete u (failed_attempts s)) s.
Proof.
  run. destruct (failed_attempts s !! u) eqn:E; [reflexivity |].
  rewrite delete_id by exact E. destruct s; reflexivity.
Qed.

Lemma user_exists_after (s : state) (u : str) : after (user_exists u) s = s.
Proof.
  unfold after. rewrite user_exists_eq.
  destruct (load_error (users_file s)); reflexivity.
Qed.

Lemma get_user_count_after (s : state) : after get_user_count s = s.
Proof.
  unfold after. rewrite get_user_count_eq.
  destruct (load_error (users_file s)); reflexivity.
Qed.

(** No call touches the threshold, the disk's behaviour or the clock. *)
Lemma step_environment (c : Trace.call) (s : state) :
  max_attempts (Trace.step c s) = max_attempts s /\
  write_fault (Trace.step c s) = write_fault s /\
  clock (Trace.step c s) = clock s.
Proof.
  destruct c as [u p | u p | u | u |]; simpl.
  - destruct (login_after_cases s u p) as [-> | [(_ & ->) | ->]]; repeat split.
  - destruct (register_after_cases s u p)
      as [-> | [(d & _ & _ & ->) | (users & remains & _ & ->)]]; repeat split.
  - rewrite unblock_after. repeat split.
  - rewrite user_exists_after. repeat split.
  - rewrite get_user_count_after. repeat split.
Qed.

Lemma step_counts_bounded (c : Trace.call) (s : state) :
  Trace.counts_bounded s -> Trace.counts_bounded (Trace.step c s).
Proof.
  intros Hinv. destruct c as [u p | u p | u | u |]; simpl;
    rewrite ?user_exists_after, ?get_user_count_after; try exact Hinv.
  - destruct (login_after_cases s u p) as [-> | [(Hb & ->) | ->]]; [exact Hinv | |].
    + intros v n. simpl. destruct (decide (u = v)) as [<- | Hne].
      * rewrite lookup_insert_eq. intros [= <-].
        split; [| lia]. unfold attempts.
        destruct (failed_attempts s !! u) as [k |] eqn:E; simpl; [| lia].
        specialize (Hinv u k E). lia.
      * rewrite lookup_insert_ne by exact Hne. apply Hinv.
    + intros v n. simpl. intros H. apply lookup_delete_Some in H.
      destruct H as (_ & H). exact (Hinv v n H).
  - destruct (register_after_cases s u p)
      as [-> | [(d & _ & _ & ->) | (users & remains & _ & ->)]]; exact Hinv.
  - rewrite unblock_after. intros v n. simpl. intros H.
    apply lookup_delete_Some in H. destruct H as (_ & H). exact (Hinv v n H).
Qed.

Lemma step_store (c : Trace.call) (s : state) :
  Trace.disk_ok s ->
  read_file (users_file s) ⊆ read_file (users_file (Trace.step c s)) /\
  (Trace.digests_stored s -> Trace.digests_stored (Trace.step c s)).
Proof.
  intros Hdisk. destruct c as [u p | u p | u | u |]; simpl.
  - destruct (login_after_cases s u p) as [-> | [(_ & ->) | ->]]; split; auto.
  - destruct (register_after_cases s u p)
      as [-> | [(d & Hd & Hfree & ->) | (users & remains & Hw & _)]].
    + split; auto.
    + simpl. split; [apply insert_subseteq; exact Hfree |].
      intros Hinv v entry. unfold Trace.digests_stored in Hinv. simpl.
      destruct (decide (u = v)) as [<- | Hne].
      * rewrite lookup_insert_eq. intros [= <-]. simpl.
        unfold Trace.is_digest.
        destruct (_hash_password_format p d Hd) as (-> & ->). reflexivity.
      * rewrite lookup_insert_ne by exact Hne. apply Hinv.
    + rewrite Hdisk in Hw. discriminate.
  - rewrite unblock_after. split; auto.
  - rewrite user_exists_after. split; auto.
  - rewrite get_user_count_after. split; auto.
Qed.

Lemma run_calls_invariants (cs : list Trace.call) :
  forall s : state,
    (max_attempts (Trace.run_calls cs s) = max_attempts s) /\
    (Trace.counts_bounded s -> Trace.counts_bounded (Trace.run_calls cs s)) /\
    (Trace.disk_ok s ->
     read_file (users_file s) ⊆ read_file (users_file (Trace.run_calls cs s)) /\
     (Trace.digests_stored s -> Trace.digests_stored (Trace.run_calls cs s))).
Proof.
  induction cs as [| c rest IH]; intros s; simpl.
  - split; [reflexivity | split; [auto | intros _; split; [reflexivity | auto]]].
  - destruct (IH (Trace.step c s)) as (Hm & Hc & Hd).
    destruct (step_environment c s) as (Hm' & Hw' & _).
    split; [congruence | split].
    + intros H. apply Hc, step_counts_bounded, H.
    + intros Hdisk.
      assert (Hdisk' : Trace.disk_ok (Trace.step c s)).
      { intros users. rewrite Hw'. apply Hdisk. }
      destruct (Hd Hdisk') as (Hsub & Hdig).
      destruct (step_store c s Hdisk) as (Hsub' & Hdig').
      split; [etransitivity; eassumption | auto].
Qed.

(** X10. However a new [AuthSystem] is used, the threshold stays 3 and the
    failure count of every name stays between 0 and 3: a count is never
    negative, a recorded count is at least 1, and counting stops at the
    threshold because a blocked name is refused before it is counted. *)
Theorem counts_stay_bounded
    (file : file_state) (fault : gmap str User.record -> option file_state)
    (now : str) (cs : list Trace.call) :
  let s := Trace.run_calls cs (__init__ file fault now) in
  max_attempts s = 3 /\
  Trace.counts_bounded s /\
  forall u, 0 <= attempts u s <= 3.
Proof.
  intros s.
  destruct (run_calls_invariants cs (__init__ file fault now)) as (Hm & Hc & _).
  fold s in Hm, Hc. simpl in Hm.
  assert (Hinv : Trace.counts_bounded s).
  { apply Hc. intros u n H. simpl in H. rewrite lookup_empty in H. discriminate. }
  split; [exact Hm | split; [exact Hinv |]].
  intros u. unfold attempts.
  destruct (failed_attempts s !! u) as [n |] eqn:E; simpl; [| lia].
  specialize (Hinv u n E). lia.
Qed.

(** While the disk accepts every write, a file that can be loaded can still
    be loaded after any sequence of calls. *)
Lemma run_calls_readable (cs : list Trace.call) :
  forall s : state,
    Trace.disk_ok s ->
    load_error (users_file s) = None ->
    load_error (users_file (Trace.run_calls cs s)) = None.
Proof.
  induction cs as [| c rest IH]; intros s Hdisk Hle; simpl; [exact Hle |].
  destruct (step_environment c s) as (_ & Hw' & _).
  apply IH.
  - intros users. rewrite Hw'. apply Hdisk.
  - destruct c as [u p | u p | u | u |]; simpl;
      rewrite ?user_exists_after, ?get_user_count_after; try exact Hle.
    + destruct (login_after_cases s u p) as [-> | [(_ & ->) | ->]]; exact Hle.
    + destruct (register_after_cases s u p)
        as [-> | [(d & _ & _ & ->) | (users & remains & Hw & _)]];
        [exact Hle | reflexivity | rewrite Hdisk in Hw; discriminate].
    + rewrite unblock_after. exact Hle.
Qed.

(** X11. While the disk accepts every write, no call removes or alters a
    stored user: an entry found in the file is found unchanged after any
    sequence of calls, and when the users can be counted they can be counted
    afterwards and their number has not decreased. *)
Theorem registered_users_stay (s : state) (cs : list Trace.call) :
  Trace.disk_ok s ->
  let s' := Trace.run_calls cs s in
  (forall u entry,
      read_file (users_file s) !! u = Some entry ->
      read_file (users_file s') !! u = Some entry) /\
  (forall n,
      value get_user_count s = Return n ->
      exists n', value get_user_count s' = Return n' /\ (n <= n')%nat).
Proof.
  intros Hdisk s'.
  destruct (run_calls_invariants cs s) as (_ & _ & H).
  destruct (H Hdisk) as (Hsub & _). fold s' in Hsub. split.
  - intros u entry Hu. eapply lookup_weaken; eassumption.
  - intros n. unfold value. rewrite !get_user_count_eq.
    destruct (load_error (users_file s)) eqn:Hle; [discriminate |].
    subst s'. rewrite (run_calls_readable cs s Hdisk Hle).
    intros [= <-]. eexists. split; [reflexivity |].
    apply map_subseteq_size. exact Hsub.
Qed.

Lemma registered_users_stay_witness :
  User.password <$>
    read_file (users_file
      (Trace.run_calls
         [Trace.Login Demo.alice Demo.wrong; Trace.Register Demo.alice Demo.wrong;
          Trace.Register Demo.ghost Demo.secret1; Trace.Unblock Demo.alice]
         Demo.alice_registered)) !! Demo.alice
    = Some (Text.lit "5b11618c2e44027877d0cd0921ed166b9f176f50587fc91e7534dd2946db77d6"%string).
Proof.
  destruct (registered_users_stay Demo.alice_registered
              [Trace.Login Demo.alice Demo.wrong; Trace.Register Demo.alice Demo.wrong;
               Trace.Register Demo.ghost Demo.secret1; Trace.Unblock Demo.alice])
    as (H & _).
  - intros users. reflexivity.
  - rewrite (H Demo.alice
               (User.Record
                  (Text.lit "5b11618c2e44027877d0cd0921ed166b9f176f50587fc91e7534dd2946db77d6"%string)
                  (clock Demo.fresh))); [reflexivity | vm_compute; reflexivity].
Defined.

(** X12. What the file holds as a password is always a digest in form: if
    every stored password field is a string of 64 lowercase hexadecimal
    characters and the disk accepts every write, the same holds after any
    sequence of calls; in particular for a system started without a file. *)
Theorem stored_passwords_are_digests (s : state) (cs : list Trace.call) :
  Trace.disk_ok s ->
  Trace.digests_stored s ->
  Trace.digests_stored (Trace.run_calls cs s).
Proof.
  intros Hdisk Hdig.
  destruct (run_calls_invariants cs s) as (_ & _ & H).
  destruct (H Hdisk) as (_ & H'). exact (H' Hdig).
Qed.

Lemma stored_passwords_are_digests_witness :
  Trace.digests_stored
    (Trace.run_calls
       [Trace.Register Demo.alice Demo.secret1; Trace.Login Demo.alice Demo.wrong;
        Trace.Register Demo.ghost Demo.secret1]
       Demo.fresh).
Proof.
  apply (stored_passwords_are_digests Demo.fresh).
  - intros users. reflexivity.
  - intros u entry H. change (read_file (users_file Demo.fresh)) with (∅ : gmap str User.record) in H.
    rewrite lookup_empty in H. discriminate.
Defined.

(** A call that raises has changed nothing. *)
Lemma raises_only_in_place (s : state) (u p : str) (e : exn) :
  (value (login u p) s = Raise e -> after (login u p) s = s) /\
  (value (Auth.register_user u p) s = Raise e ->
   after (Auth.register_user u p) s = s).
Proof.
  unfold value, after. split.
  - rewrite login_eq.
    destruct (max_attempts s <=? attempts u s); [reflexivity |].
    destruct (load_error (users_file s)); [reflexivity |].
    destruct (read_file (users_file s) !! u) as [entry |]; [| discriminate].
    destruct (_hash_password p) as [d | e']; [| reflexivity].
    destruct (bool_decide (User.password entry = d)); discriminate.
  - destruct (le_lt_dec 3 (length u)) as [Hu | Hu];
      [destruct (le_lt_dec 6 (length p)) as [Hp | Hp] |].
    + rewrite register_validated by assumption.
      destruct (load_error (users_file s)); [reflexivity |].
      destruct (read_file (users_file s) !! u); [reflexivity |].
      destruct (_hash_password p); [| reflexivity].
      simpl. destruct (write_fault s _); discriminate.
    + destruct (register_rejected s u p) as (m & _ & ->); [right; exact Hp |]. reflexivity.
    + destruct (register_rejected s u p) as (m & _ & ->); [left; exact Hu |]. reflexivity.
Qed.

(** What a [login] call can have changed. *)
Lemma login_frame (a : state) (u p : str) :
  let a' := after (login u p) a in
  users_file a' = users_file a /\
  max_attempts a' = max_attempts a /\
  write_fault a' = write_fault a /\
  clock a' = clock a /\
  forall v, v <> u -> failed_attempts a' !! v = failed_attempts a !! v.
Proof.
  intros a'. subst a'.
  destruct (login_after_cases a u p) as [-> | [(_ & ->) | ->]]; simpl;
    repeat split; try reflexivity; intros v Hv.
  - apply lookup_insert_ne. congruence.
  - apply lookup_delete_ne. congruence.
Qed.

Lemma step_keeps_blocked (u : str) (c : Trace.call) (s : state) :
  Trace.unblocks u c = false ->
  max_attempts s <= attempts u s ->
  max_attempts (Trace.step c s) = max_attempts s /\
  attempts u (Trace.step c s) = attempts u s.
Proof.
  intros Hc Hb. destruct (step_environment c s) as (Hm & _). split; [exact Hm |].
  destruct c as [v p | v p | v | v |]; simpl in *;
    rewrite ?user_exists_after, ?get_user_count_after; try reflexivity.
  - destruct (decide (v = u)) as [-> | Hne].
    + unfold after. rewrite login_blocked by exact Hb. reflexivity.
    + destruct (login_frame s v p) as (_ & _ & _ & _ & Hother).
      unfold attempts. rewrite Hother by congruence. reflexivity.
  - destruct (register_after_cases s v p)
      as [-> | [(d & _ & _ & ->) | (users & remains & _ & ->)]]; reflexivity.
  - rewrite unblock_after. unfold attempts. simpl.
    apply bool_decide_eq_false in Hc. rewrite lookup_delete_ne by exact Hc. reflexivity.
Qed.

(** X19. Only [unblock_user] lifts a block: if a name is blocked, it is
    still blocked, with the same failure count, after any sequence of calls
    that contains no [unblock_user] for that name, whoever logs in or
    registers in between. *)
Theorem blocked_until_unblocked (s : state) (u : str) (cs : list Trace.call) :
  value (_is_user_blocked u) s = Return true ->
  forallb (fun c => negb (Trace.unblocks u c)) cs = true ->
  value (_is_user_blocked u) (Trace.run_calls cs s) = Return true /\
  attempts u (Trace.run_calls cs s) = attempts u s.
Proof.
  intros Hb Hcs. apply blocked_iff in Hb. rewrite blocked_iff.
  revert s Hb. induction cs as [| c rest IH]; intros s Hb; simpl.
  - split; [exact Hb | reflexivity].
  - simpl in Hcs. apply andb_true_iff in Hcs. destruct Hcs as (Hc & Hrest).
    apply negb_true_iff in Hc.
    destruct (step_keeps_blocked u c s Hc Hb) as (Hm & Ha).
    destruct (IH Hrest (Trace.step c s)) as (H1 & H2); [rewrite Hm, Ha; exact Hb |].
    rewrite H2, Ha. split; [| reflexivity].
    rewrite H2, Ha in H1. etransitivity; [| exact H1].
    destruct (run_calls_invariants rest (Trace.step c s)) as (Hmax & _).
    rewrite Hmax, Hm. reflexivity.
Qed.

Lemma blocked_until_unblocked_witness :
  value (_is_user_blocked Demo.alice)
        (Trace.run_calls
           [Trace.Login Demo.alice Demo.secret1; Trace.Register Demo.ghost Demo.secret1;
            Trace.Login Demo.ghost Demo.secret1; Trace.Unblock Demo.ghost]
           Demo.alice_blocked)
    = Return true.
Proof.
  apply (blocked_until_unblocked Demo.alice_blocked Demo.alice);
    [reflexivity | vm_compute; reflexivity].
Defined.

(* ===================================================================== *)
(** ** The front end: reading input *)
(* ===================================================================== *)

Import LoginInterface.

Lemma lstrip_suffix (t : str) : lstrip t `suffix_of` t.
Proof.
  induction t as [| c rest IH]; simpl; [reflexivity |].
  destruct (isspace c); [| reflexivity].
  apply suffix_cons_r. exact IH.
Qed.

Lemma lstrip_head (t : str) :
  match lstrip t with
  | c :: _ => isspace c = false
  | [] => True
  end.
Proof.
  induction t as [| c rest IH]; simpl; [exact I |].
  destruct (isspace c) eqn:E; [exact IH | exact E].
Qed.

Lemma lstrip_fixed (t : str) :
  match t with
  | c :: _ => isspace c = false
  | [] => True
  end ->
  lstrip t = t.
Proof. destruct t as [| c rest]; simpl; [reflexivity |]. intros ->. reflexivity. Qed.

Lemma rstrip_prefix (t : str) : rstrip t `prefix_of` t.
Proof.
  unfold rstrip. destruct (lstrip_suffix (rev t)) as [k Hk].
  exists (rev k). apply (f_equal (@rev N)) in Hk.
  rewrite rev_involutive, rev_app_distr in Hk. exact Hk.
Qed.

Lemma strip_length (t : str) : (length (strip t) <= length t)%nat.
Proof.
  unfold strip.
  etransitivity; [apply prefix_length, rstrip_prefix |].
  apply suffix_length, lstrip_suffix.
Qed.

Lemma strip_idempotent (t : str) : strip (strip t) = strip t.
Proof.
  unfold strip at 1.
  assert (Hl : lstrip (strip t) = strip t).
  { apply lstrip_fixed. unfold strip.
    pose proof (lstrip_head t) as Hh. destruct (rstrip_prefix (lstrip t)) as [k Hk].
    destruct (rstrip (lstrip t)) as [| c rest]; [exact I |].
    rewrite Hk in Hh. exact Hh. }
  rewrite Hl. unfold rstrip, strip, rstrip. rewrite rev_involutive.
  rewrite (lstrip_fixed (lstrip _)); [reflexivity |]. apply lstrip_head.
Qed.

Lemma first_fitting_spec (max_length : Z) (lines : list str) :
  match first_fitting max_length lines with
  | (Ok v, rest) =>
      exists skipped line,
        lines = skipped ++ line :: rest /\
        Forall (too_long max_length) skipped /\
        v = strip line /\ Z.of_nat (length v) <= max_length
  | (Err e, rest) =>
      e = EOFError /\ rest = [] /\ Forall (too_long max_length) lines
  end.
Proof.
  induction lines as [| line rest IH]; simpl; [repeat split; constructor |].
  destruct (Z.leb_spec (Z.of_nat (length (strip line))) max_length) as [Hfit | Hlong].
  - exists [], line. repeat split; [constructor | exact Hfit].
  - destruct (first_fitting max_length rest) as [[v | e] rest'].
    + destruct IH as (skipped & l & -> & Hall & -> & Hfit).
      exists (line :: skipped), l. repeat split; [constructor; assumption | exact Hfit].
    + destruct IH as (-> & -> & Hall). repeat split. constructor; assumption.
Qed.

(** X13. [get_user_input] skips every line that is longer than the limit
    once stripped and returns the first one that fits, stripped of
    surrounding whitespace: the result is never longer than the limit and
    stripping it again changes nothing.  It raises [EOFError] exactly when
    no line to come fits; nothing but the input is touched. *)
Theorem get_user_input_returns_first_fitting (max_length : Z) (s : ui) :
  exists r s',
    get_user_input max_length s = Some (r, s') /\
    auth s' = auth s /\ current_user s' = current_user s /\ tty s' = tty s /\
    match r with
    | Ok v =>
        Z.of_nat (length v) <= max_length /\
        strip v = v /\
        exists skipped line,
          stdin s = skipped ++ line :: stdin s' /\
          Forall (too_long max_length) skipped /\
          v = strip line
    | Err e =>
        e = EOFError /\ stdin s' = [] /\ Forall (too_long max_length) (stdin s)
    end.
Proof.
  unfold get_user_input. pose proof (first_fitting_spec max_length (stdin s)) as H.
  destruct (first_fitting max_length (stdin s)) as [[v | e] rest].
  - destruct H as (skipped & line & Hs & Hall & -> & Hfit).
    eexists _, _. split; [reflexivity |]. simpl. repeat split; try assumption.
    + apply strip_idempotent.
    + exists skipped, line. repeat split; assumption.
  - destruct H as (-> & -> & Hall).
    eexists _, _. split; [reflexivity |]. simpl. repeat split. exact Hall.
Qed.

(* ===================================================================== *)
(** ** The front end: registration *)
(* ===================================================================== *)

Lemma pause_eq (s : ui) :
  pause s = Some (match stdin s with
                  | _ :: rest => (Ok tt, set_stdin rest s)
                  | [] => (Err EOFError, s)
                  end).
Proof. unfold pause, and_then, input, pure. destruct (stdin s); reflexivity. Qed.


Lemma reads_refl (s : ui) : reads s s.
Proof. split; reflexivity. Qed.

Lemma reads_trans (s1 s2 s3 : ui) : reads s1 s2 -> reads s2 s3 -> reads s1 s3.
Proof. intros (H1 & H2) (H3 & H4). split; etransitivity; eassumption. Qed.

Lemma quiet_refl (s : ui) : quiet s s.
Proof. split; [apply reads_refl | repeat split]. Qed.

Lemma quiet_trans (s1 s2 s3 : ui) : quiet s1 s2 -> quiet s2 s3 -> quiet s1 s3.
Proof.
  intros (H1 & Ha & Hb & Hc & Hd) (H2 & Ha' & Hb' & Hc' & Hd').
  split; [eapply reads_trans; eassumption | repeat split; congruence].
Qed.

(** [pause] as one step: it only consumes a line, or raises at the end of
    the input. *)
Lemma pause_ends (s : ui) :
  ends pause s (fun r s' =>
    auth s' = auth s /\ current_user s' = current_user s /\ tty s' = tty s /\
    match r with
    | Ok _ => exists line, stdin s = line :: stdin s'
    | Err e => e = EOFError /\ stdin s = [] /\ s' = s
    end).
Proof.
  unfold ends. rewrite pause_eq. destruct (stdin s) as [| line rest] eqn:E.
  - eexists _, _. split; [reflexivity |]. repeat split.
  - eexists _, _. split; [reflexivity |]. simpl. repeat split. eauto.
Qed.

Lemma registration_post_unchanged (s s' : ui) (r : res unit) :
  reads s s' ->
  current_user s' = current_user s ->
  auth s' = auth s ->
  r <> Err AttributeError ->
  registration_post s r s'.
Proof.
  intros Hr Hc Ha Hne. unfold registration_post. rewrite Ha.
  repeat split; try assumption; try (apply Hr); auto; congruence.
Qed.

Lemma pause_registration_post (s s1 : ui) :
  reads s s1 ->
  current_user s1 = current_user s ->
  auth s1 = auth s ->
  ends pause s1 (registration_post s).
Proof.
  intros Hr Hc Ha. destruct (pause_ends s1) as (r & s' & Hp & Ha' & Hc' & Ht & Hres).
  exists r, s'. split; [exact Hp |].
  apply registration_post_unchanged; try congruence.
  - eapply reads_trans; [exact Hr |]. split; [| rewrite Ht; reflexivity].
    destruct r as [[] | e].
    + destruct Hres as (line & ->). apply suffix_cons_r. reflexivity.
    + destruct Hres as (_ & _ & ->). reflexivity.
  - destruct r as [[] | e]; [discriminate |].
    destruct Hres as (-> & _). discriminate.
Qed.

Lemma pause_after_registration (s s3 : ui) (username password : str) (rest : list str) :
  reads s s3 ->
  current_user s3 = current_user s ->
  auth s3 = after (Auth.register_user username password) (auth s) ->
  Trace.disk_ok (auth s) ->
  tty s = password :: password :: rest ->
  (length username <= 30)%nat ->
  strip username = username ->
  ends pause s3 (registration_post s).
Proof.
  intros Hr Hc Ha Hdisk Ht Hlen Hstrip.
  assert (Hcases :
            auth s3 = auth s \/
            exists d,
              (3 <= length username)%nat /\ (6 <= length password)%nat /\
              _hash_password password = Return d /\
              read_file (users_file (auth s)) !! username = None /\
              auth s3 = set_users_file
                          (Stored (<[username := User.Record d (clock (auth s))]>
                                     (read_file (users_file (auth s))))) (auth s)).
  { rewrite Ha. unfold after.
    destruct (le_lt_dec 3 (length username)) as [Hu | Hu];
      [destruct (le_lt_dec 6 (length password)) as [Hp | Hp] |].
    - rewrite register_validated by assumption.
      destruct (load_error (users_file (auth s))); [left; reflexivity |].
      destruct (read_file (users_file (auth s)) !! username) eqn:E; [left; reflexivity |].
      destruct (_hash_password password) as [d | e] eqn:Hh; [| left; reflexivity].
      simpl. rewrite Hdisk. right. exists d. repeat split; assumption.
    - left. destruct (register_rejected (auth s) username password) as (m & _ & ->);
        [right; exact Hp | reflexivity].
    - left. destruct (register_rejected (auth s) username password) as (m & _ & ->);
        [left; exact Hu | reflexivity]. }
  destruct Hcases as [Hsame | (d & Hu & Hp & Hh & Hfree & Hnew)].
  { apply pause_registration_post; assumption. }
  destruct (pause_ends s3) as (r & s' & Hpause & Ha' & Hc' & Ht' & Hres).
  exists r, s'. split; [exact Hpause |].
  unfold registration_post. rewrite Ha', Hnew. simpl. repeat split.
  - etransitivity; [| apply Hr].
    destruct r as [[] | e].
    + destruct Hres as (line & ->). apply suffix_cons_r. reflexivity.
    + destruct Hres as (_ & _ & ->). reflexivity.
  - rewrite Ht'. apply Hr.
  - congruence.
  - destruct r as [[] | e]; [discriminate |]. destruct Hres as (-> & _). discriminate.
  - intros u entry Hsome. rewrite lookup_insert_ne; [exact Hsome | congruence].
  - destruct (decide (username = u)) as [<- | Hne]; [lia |].
    rewrite lookup_insert_ne in H0 by exact Hne. congruence.
  - destruct (decide (username = u)) as [<- | Hne]; [lia |].
    rewrite lookup_insert_ne in H0 by exact Hne. congruence.
  - destruct (decide (username = u)) as [<- | Hne]; [exact Hstrip |].
    rewrite lookup_insert_ne in H0 by exact Hne. congruence.
  - destruct (decide (username = u)) as [<- | Hne].
    + rewrite lookup_insert_eq in H0. injection H0 as <-.
      exists password, rest. repeat split; assumption.
    + rewrite lookup_insert_ne in H0 by exact Hne. congruence.
Qed.

(** X14. Through the front end a user name is stored only if, stripped of
    surrounding whitespace, it has between three and thirty characters, and
    only with the digest of a password of six characters or more that was
    typed twice identically.  (The disk is assumed to accept writes.)  The
    front end's [register_user] always ends, removes or alters no stored
    user, and leaves the failure counts and the current user alone. *)
Theorem interface_registers_bounded_names (s : ui) :
  Trace.disk_ok (auth s) ->
  ends register_user s (registration_post s).
Proof.
  intros Hdisk. unfold register_user. unfold and_then at 1. unfold get_user_input.
  unfold ends. cbv beta.
  pose proof (first_fitting_spec 30 (stdin s)) as Hff.
  destruct (first_fitting 30 (stdin s)) as [[username | e] rest1].
  2: { destruct Hff as (-> & -> & _). eexists _, _. split; [reflexivity |].
       apply registration_post_unchanged; simpl; try reflexivity; [| discriminate].
       split; simpl; [apply suffix_nil | reflexivity]. }
  destruct Hff as (skipped & line & Hs & _ & Hv & Hfit).
  set (s1 := set_stdin rest1 s).
  assert (Hr1 : reads s s1).
  { split; simpl; [| reflexivity]. rewrite Hs. apply suffix_app_r, suffix_cons_r. reflexivity. }
  assert (Hstrip : strip username = username) by (rewrite Hv; apply strip_idempotent).
  destruct (falsy username) eqn:Hf; [apply pause_registration_post; auto |].
  unfold and_then at 1. unfold call at 1. cbv beta.
  change (auth s1) with (auth s). rewrite user_exists_eq.
  destruct (load_error (users_file (auth s))).
  { eexists _, _. split; [reflexivity |].
    apply registration_post_unchanged; simpl; try reflexivity; [exact Hr1 | discriminate]. }
  destruct (bool_decide (is_Some (read_file (users_file (auth s)) !! username))).
  { apply pause_registration_post; auto. }
  unfold and_then at 1. unfold get_password_input, getpass. simpl.
  destruct (tty s) as [| password t1] eqn:Ht.
  { eexists _, _. split; [reflexivity |].
    apply registration_post_unchanged; simpl; try reflexivity; [| discriminate].
    split; simpl; [apply Hr1 | rewrite Ht; reflexivity]. }
  destruct (falsy password) eqn:Hfp.
  { apply pause_registration_post; simpl; try reflexivity.
    split; simpl; [apply Hr1 | rewrite Ht; apply suffix_cons_r; reflexivity]. }
  unfold and_then at 1. simpl.
  destruct t1 as [| confirm t2].
  { eexists _, _. split; [reflexivity |].
    apply registration_post_unchanged; simpl; try reflexivity; [| discriminate].
    split; simpl; [apply Hr1 | rewrite Ht; apply suffix_cons_r; reflexivity]. }
  assert (Hr2 : forall a, reads s (set_auth a (set_tty t2 (set_tty (confirm :: t2)
                                                   (set_auth (auth s) s1))))).
  { intros a. split; simpl; [apply Hr1 |].
    rewrite Ht. do 2 apply suffix_cons_r. reflexivity. }
  destruct (bool_decide_reflect (password = confirm)) as [<- | Hne];
    [change (negb true) with false | change (negb false) with true];
    cbv beta iota.
  - unfold and_then at 1. unfold call at 1. cbv beta. simpl auth.
    destruct (Auth.register_user username password (auth s)) as [[outcome | e] a'] eqn:Hreg.
    + apply (pause_after_registration s _ username password t2); try assumption.
      * apply Hr2.
      * reflexivity.
      * simpl. unfold after. rewrite Hreg. reflexivity.
      * lia.
    + assert (Ha' : a' = auth s).
      { destruct (raises_only_in_place (auth s) username password e) as (_ & H).
        unfold value, after in H. rewrite Hreg in H. simpl in H.
        apply H. reflexivity. }
      eexists _, _. split; [reflexivity |].
      apply registration_post_unchanged; simpl; try reflexivity;
        [apply Hr2 | exact Ha' | discriminate].
  - apply pause_registration_post; simpl; try reflexivity.
    apply (Hr2 (auth s)).
Qed.

(* ===================================================================== *)
(** ** The front end: sessions and the main loop *)
(* ===================================================================== *)





(** [input] as one step. *)
Lemma input_ends (s : ui) :
  ends input s (fun r s' =>
    match r with
    | Ok line => stdin s = line :: stdin s' /\ s' = set_stdin (stdin s') s
    | Err e => e = EOFError /\ stdin s = [] /\ s' = s
    end).
Proof.
  unfold ends, input. destruct (stdin s) as [| line rest] eqn:E.
  - eexists _, _. split; [reflexivity |]. repeat split.
  - eexists _, _. split; [reflexivity |]. simpl. split; reflexivity.
Qed.



Lemma idle_trans (s s1 s2 : ui) (r1 r2 : res unit) :
  idle s r1 s1 -> idle s1 r2 s2 -> idle s r2 s2.
Proof.
  intros (Ha & Hc & Hr & _) (Ha' & Hc' & Hr' & Hne).
  repeat split; try congruence; try (etransitivity; [apply Hr' | apply Hr]).
Qed.



















Example visit_runs :
  (fst <$> main 13 Visit.start) = Some 0 /\
  (value get_user_count <$> (auth <$> (snd <$> main 13 Visit.start)))
    = Some (Return 1%nat) /\
  (stdin <$> (snd <$> main 13 Visit.start)) = Some [].
Proof. vm_compute. repeat split. Qed.







Lemma interface_registers_bounded_names_witness :
  ends register_user
       (set_stdin (map Text.lit ["  bob  "; "ok"]%string) Visit.start)
       (registration_post
          (set_stdin (map Text.lit ["  bob  "; "ok"]%string) Visit.start)).
Proof.
  apply (interface_registers_bounded_names
           (set_stdin (map Text.lit ["  bob  "; "ok"]%string) Visit.start)).
  intros users. reflexivity.
Defined.

(* ===================================================================== *)
(** ** The configuration *)
(* ===================================================================== *)

Lemma check_spec (cond : bool) (e : Config.config_error)
    (errors : list Config.config_error) (x : Config.config_error) :
  x ∈ Config.check cond e errors <-> x ∈ errors \/ (cond = true /\ x = e).
Proof.
  unfold Config.check. destruct cond.
  - rewrite elem_of_app, list_elem_of_singleton. intuition.
  - intuition. discriminate.
Qed.

(** X18. [validate_config] reports soundly and completely: it answers valid
    exactly when none of its seven conditions is violated, and otherwise its
    message lists an error if and only if that error's condition is
    violated, each once.  A configuration it accepts has a positive
    threshold and non-empty ranges of user name and password lengths. *)
Theorem validate_config_reports_every_violation (c : Config.config) :
  (Config.validate_config c = (true, Config.Valid) <->
   forall e, ~ Config.violated c e) /\
  (forall errors,
      Config.validate_config c = (false, Config.Errors errors) ->
      errors <> [] /\ NoDup errors /\
      forall e, e ∈ errors <-> Config.violated c e) /\
  (Config.validate_config c = (true, Config.Valid) \/
   exists errors, Config.validate_config c = (false, Config.Errors errors)) /\
  (Config.validate_config c = (true, Config.Valid) ->
   1 <= Config.max_failed_attempts c /\
   1 <= Config.min_username_length c <= Config.max_username_length c /\
   1 <= Config.min_password_length c <= Config.max_password_length c).
Proof.
  unfold Config.validate_config.
  set (errors :=
         Config.check (Config.json_indent c <? 0) Config.BadJsonIndent
           (Config.check (falsy (Config.users_file c)) Config.EmptyUsersFile
              (Config.check (Config.max_password_length c <? Config.min_password_length c)
                 Config.BadPasswordRange
                 (Config.check (Config.max_username_length c <? Config.min_username_length c)
                    Config.BadUsernameRange
                    (Config.check (Config.min_password_length c <? 1)
                       Config.BadMinPasswordLength
                       (Config.check (Config.min_username_length c <? 1)
                          Config.BadMinUsernameLength
                          (Config.check (Config.max_failed_attempts c <? 1)
                             Config.BadMaxFailedAttempts []))))))).
  assert (Hmem : forall e, e ∈ errors <-> Config.violated c e).
  { intros e. subst errors. rewrite !check_spec, elem_of_nil.
    rewrite !Z.ltb_lt.
    assert (Hfalsy : falsy (Config.users_file c) = true <-> Config.users_file c = []).
    { destruct (Config.users_file c); simpl; split; congruence. }
    rewrite Hfalsy.
    destruct e; simpl; split; intros H;
      repeat (destruct H as [H | H]);
      try (destruct H as (H & H')); try discriminate; try contradiction;
      try assumption; try lia; intuition (auto; lia). }
  assert (Hnodup : NoDup errors).
  { subst errors. unfold Config.check.
    repeat match goal with
           | |- context [if ?b then _ else _] => destruct b
           end;
      simpl; repeat constructor; rewrite ?elem_of_cons, ?elem_of_nil; intuition congruence. }
  clearbody errors.
  destruct errors as [| e0 rest].
  - assert (Hnone : forall e, ~ Config.violated c e).
    { intros e Hv. apply Hmem in Hv. apply elem_of_nil in Hv. exact Hv. }
    split; [split; [intros _; exact Hnone | reflexivity] |].
    split; [intros errs [=] |].
    split; [left; reflexivity |].
    intros _.
    pose proof (Hnone Config.BadMaxFailedAttempts) as H1.
    pose proof (Hnone Config.BadMinUsernameLength) as H2.
    pose proof (Hnone Config.BadMinPasswordLength) as H3.
    pose proof (Hnone Config.BadUsernameRange) as H4.
    pose proof (Hnone Config.BadPasswordRange) as H5.
    simpl in H1, H2, H3, H4, H5. lia.
  - split; [split; [discriminate |] |].
    { intros H. exfalso. apply (H e0). apply Hmem. apply list_elem_of_here. }
    split.
    { intros errs [= <-]. split; [discriminate | split; [exact Hnodup | exact Hmem]]. }
    split; [right; eexists; reflexivity | discriminate].
Qed.
